(** * Extension reconciliation and sync pipeline of vscode-syncing

    A shallow embedding of [src/core/Extension.ts]: the [Extension] class
    with its differ ([_getDifferentExtensions]), the three batch runners
    ([_addExtensions], [_updateExtensions], [_removeExtensions]), the
    per-record stages ([downloadExtension], [extractExtension],
    [updateMetadata], [uninstallExtension]) and the orchestrator ([sync]).

    Promises are functions from a world to a settled outcome and a new world;
    the libraries the class calls (tmp, https, extract-zip, fs-extra, path)
    are the fields of a [Platform]; the host editor's registry and the two
    collaborators [_env] and [_syncing] form an [Env].

    What the embedding takes for granted: every library call comes back (a
    request that hangs is not modelled); the registry does not change during
    a pass (VSCode loads extensions at start-up); the calls to [Toast] and to
    [done] do not throw. Under these, what a run does is a function of the
    platform, the environment and the world it starts in, and one callback
    runs at a time, as in the event loop. *)

From Stdlib Require Import String Ascii List Bool Arith ZArith Lia.
From Stdlib Require Import Permutation Sorted DecimalString.
Import ListNotations.

Local Open Scope list_scope.
Local Open Scope string_scope.

Set Implicit Arguments.

(* ================================================================= *)
(** ** JavaScript values *)

(** Truthiness of an optional string ([undefined] and the empty string are
    falsy). *)
Definition truthy (o : option string) : bool :=
  match o with
  | Some s => negb (s =? "")
  | None => false
  end.

(** [Array.prototype.indexOf] on an array of strings: the first index of the
    element, or [-1]. *)
Fixpoint indexOf_from (i : Z) (arr : list string) (x : string) : Z :=
  match arr with
  | [] => (-1)%Z
  | y :: ys => if y =? x then i else indexOf_from (i + 1) ys x
  end.

Definition indexOf (arr : list string) (x : string) : Z := indexOf_from 0 arr x.

(** [Array.prototype.push], as a new array. *)
Definition push {A : Type} (arr : list A) (x : A) : list A := (arr ++ [x])%list.

(** Values of a JSON document, as [fs.readJson] yields them. *)
#[local] Unset Elimination Schemes.
Inductive Json : Type :=
| JNull
| JBool (b : bool)
| JNumber (literal : string)
| JString (s : string)
| JArray (items : list Json)
| JObject (members : list (string * Json)).
#[local] Set Elimination Schemes.

Definition decimal (n : nat) : string := NilZero.string_of_uint (Nat.to_uint n).

Fixpoint indexed {A : Type} (i : nat) (xs : list A) : list (string * A) :=
  match xs with
  | [] => []
  | x :: xs' => (decimal i, x) :: indexed (S i) xs'
  end.

Fixpoint characters (s : string) : list Json :=
  match s with
  | EmptyString => []
  | String c s' => JString (String c EmptyString) :: characters s'
  end.

(** The own enumerable properties an object spread [{ ...v }] copies. *)
Definition own_properties (v : Json) : list (string * Json) :=
  match v with
  | JObject members => members
  | JArray items => indexed 0 items
  | JString s => indexed 0 (characters s)
  | _ => []
  end.

(** Assignment of one property: an existing key keeps its place. *)
Fixpoint set_property (members : list (string * Json)) (k : string) (v : Json)
  : list (string * Json) :=
  match members with
  | [] => [(k, v)]
  | (k', v') :: rest =>
      if k' =? k then (k, v) :: rest else (k', v') :: set_property rest k v
  end.

(* ================================================================= *)
(** ** Data model *)

(** [IExtension]: a VSCode extension. *)
Record IExtension : Type := mkIExtension {
  id : string;
  name : string;
  publisher : string;
  version : string;
  __metadata : option string;
  zip : option string;
  path : option string
}.

(** [{ ...extension, zip: filepath }] *)
Definition with_zip (e : IExtension) (filepath : string) : IExtension :=
  {| id := e.(id); name := e.(name); publisher := e.(publisher);
     version := e.(version); __metadata := e.(__metadata);
     zip := Some filepath; path := e.(path) |}.

(** [{ ...extension, path: extPath }] *)
Definition with_path (e : IExtension) (extPath : string) : IExtension :=
  {| id := e.(id); name := e.(name); publisher := e.(publisher);
     version := e.(version); __metadata := e.(__metadata);
     zip := e.(zip); path := Some extPath |}.

(** [ISyncOptions]: the options of the three batch runners. *)
Record ISyncOptions : Type := mkISyncOptions {
  extensions : list IExtension;
  progress : nat;
  total : nat;
  showIndicator : option bool
}.

(** The destructuring default [showIndicator = false]. *)
Definition showIndicator_or_false (options : ISyncOptions) : bool :=
  match options.(showIndicator) with
  | Some b => b
  | None => false
  end.

(** The host editor's registry ([vscode.extensions]). *)
Module vscode.

Record PackageJSON : Type := mkPackageJSON {
  name : string;
  publisher : string;
  version : string;
  isBuiltin : bool;
  __metadata : option string
}.

Record Extension : Type := mkExtension {
  packageJSON : PackageJSON
}.

(** The canonical identifier of a registered extension, [publisher.name]. *)
Definition id (e : Extension) : string :=
  e.(packageJSON).(publisher) ++ "." ++ e.(packageJSON).(name).

End vscode.

(** The result object of the differ; [total] is its getter. *)
Module Delta.

Record t : Type := mk {
  added : list IExtension;
  removed : list IExtension;
  updated : list IExtension
}.

Definition total (d : t) : nat :=
  List.length d.(added) + List.length d.(removed) + List.length d.(updated).

End Delta.

(** The result objects of the three batch runners. *)
Module Added.
Record t : Type := mk { added : list IExtension; addedErrors : list IExtension }.
End Added.

Module Updated.
Record t : Type := mk { updated : list IExtension; updatedErrors : list IExtension }.
End Updated.

Module Removed.
Record t : Type := mk { removed : list IExtension; removedErrors : list IExtension }.
End Removed.

(** [ISyncStatus.extension]: it starts as the empty object [{}] and receives
    the keys of each batch result through [Object.assign]. *)
Module Status.

Record t : Type := mk {
  added : option (list IExtension);
  addedErrors : option (list IExtension);
  updated : option (list IExtension);
  updatedErrors : option (list IExtension);
  removed : option (list IExtension);
  removedErrors : option (list IExtension)
}.

Definition empty : t := mk None None None None None None.

Definition of_added (r : Added.t) : t :=
  mk (Some r.(Added.added)) (Some r.(Added.addedErrors)) None None None None.

Definition of_updated (r : Updated.t) : t :=
  mk None None (Some r.(Updated.updated)) (Some r.(Updated.updatedErrors)) None None.

Definition of_removed (r : Removed.t) : t :=
  mk None None None None (Some r.(Removed.removed)) (Some r.(Removed.removedErrors)).

Definition assign_key {A : Type} (target source : option A) : option A :=
  match source with
  | Some v => Some v
  | None => target
  end.

(** [Object.assign(target, source)] *)
Definition assign (target source : t) : t :=
  mk (assign_key target.(added) source.(added))
     (assign_key target.(addedErrors) source.(addedErrors))
     (assign_key target.(updated) source.(updated))
     (assign_key target.(updatedErrors) source.(updatedErrors))
     (assign_key target.(removed) source.(removed))
     (assign_key target.(removedErrors) source.(removedErrors)).

End Status.

(** [ISyncStatus]; [sync] never sets the [file] key. *)
Record ISyncStatus : Type := mkISyncStatus {
  extension : option Status.t
}.

(* ================================================================= *)
(** ** The environment of the class *)

(** [vscode.extensions.all], [this._env.extensionsPath] and
    [this._syncing.proxy]. *)
Record Env : Type := mkEnv {
  all : list vscode.Extension;
  extensionsPath : string;
  proxy : option string
}.

(** [vscode.extensions.getExtension(id)]: the registered extension with this
    identifier, if any. *)
Definition getExtension (env : Env) (extensionId : string) : option vscode.Extension :=
  find (fun e => vscode.id e =? extensionId) env.(all).

(** [https.RequestOptions], as far as [downloadExtension] fills them. *)
Module Https.
Record RequestOptions : Type := mkRequestOptions {
  host : string;
  path : string;
  agent : option string
}.
End Https.

(** What a promise is rejected with. *)
Inductive Reason : Type :=
| Undefined
| Message (s : string)
| Error (message : string).

(** The libraries the class calls. Each asynchronous call takes the state of
    the machine and returns what its callback receives, or what its promise
    settles with, and the new state: every call comes back. An error of
    extract-zip or fs-extra is given by its message. *)
Record Platform : Type := mkPlatform {
  Machine : Type;
  path_join : string -> string -> string;
  tmp_file : string -> Machine -> (Reason + string) * Machine;
  tmp_dir : string -> Machine -> (Reason + string) * Machine;
  fs_createWriteStream : string -> Machine -> Machine;
  https_get : Https.RequestOptions -> Machine -> (Reason + nat) * Machine;
  pipe : string -> Machine -> option Reason * Machine;
  extractZip : string -> string -> Machine -> option string * Machine;
  fs_emptyDir : string -> Machine -> (string + unit) * Machine;
  fs_copy : string -> string -> Machine -> (string + unit) * Machine;
  fs_readJson : string -> Machine -> (string + Json) * Machine;
  fs_writeJson : string -> Json -> Machine -> (string + unit) * Machine;
  fs_remove : string -> Machine -> (string + unit) * Machine
}.

(** The batches of one pass. *)
Inductive Batch : Type := AddBatch | UpdateBatch | RemoveBatch.

(** A library call with its arguments. *)
Inductive Call : Type :=
| CallTmpFile (postfix : string)
| CallTmpDir (postfix : string)
| CallCreateWriteStream (filepath : string)
| CallHttpsGet (options : Https.RequestOptions)
| CallPipe (filepath : string)
| CallExtractZip (zipFilepath dir : string)
| CallEmptyDir (dir : string)
| CallCopy (src dest : string)
| CallReadJson (filepath : string)
| CallWriteJson (filepath : string) (content : Json)
| CallRemove (target : string).

(** What is observed of a run, in order: the calls to [Toast], the library
    calls, and for each record of a batch the entry into the iteratee and its
    call of [done]. *)
Inductive Event : Type :=
| ShowSpinner (message : string) (step : nat) (total : nat)
| ClearSpinner (message : string)
| Called (c : Call)
| Attempt (b : Batch) (item : IExtension)
| Done (b : Batch) (item : IExtension) (ok : bool).

(* ================================================================= *)
(** ** The class [Extension] *)

Section Extension.

Variable P : Platform.
Variable env : Env.

(** The state of a run: the machine the libraries act on and what has been
    observed so far. *)
Record World : Type := mkWorld {
  machine : P.(Machine);
  events : list Event
}.

(** Code that runs to its callback. *)
Definition IO (X : Type) : Type := World -> X * World.

Definition ret {X : Type} (x : X) : IO X := fun w => (x, w).

Definition bind {X Y : Type} (m : IO X) (k : X -> IO Y) : IO Y :=
  fun w => let (x, w') := m w in k x w'.

Notation "x <- m ;; k" := (bind m (fun x => k))
  (at level 100, m at next level, right associativity).
Notation "m ;;; k" := (bind m (fun _ => k))
  (at level 100, right associativity).

Definition emit (e : Event) : IO unit :=
  fun w => (tt, mkWorld w.(machine) (push w.(events) e)).

Definition call {X : Type} (c : Call) (op : P.(Machine) -> X * P.(Machine)) : IO X :=
  fun w => let (x, m) := op w.(machine) in (x, mkWorld m (push w.(events) (Called c))).

Definition when (b : bool) (m : IO unit) : IO unit := if b then m else ret tt.

(** [Toast.showSpinner] and [Toast.clearSpinner], by their calls. *)
Definition showSpinner (message : string) (step total : nat) : IO unit :=
  emit (ShowSpinner message step total).

Definition clearSpinner (message : string) : IO unit :=
  emit (ClearSpinner message).

(** A promise, by how it settles; [Pending] is a promise that never does. *)
Inductive Settled (A : Type) : Type :=
| Fulfilled (value : A)
| Rejected (reason : Reason)
| Pending.

Arguments Rejected {A} reason.
Arguments Pending {A}.

Definition Promise (A : Type) : Type := IO (Settled A).

Definition resolve {A : Type} (value : A) : Promise A := ret (Fulfilled value).

Definition reject {A : Type} (reason : Reason) : Promise A := ret (Rejected reason).

(** [p.then(onFulfilled)] *)
Definition then_ {A B : Type} (p : Promise A) (onFulfilled : A -> Promise B) : Promise B :=
  s <- p ;;
  match s with
  | Fulfilled value => onFulfilled value
  | Rejected reason => ret (Rejected reason)
  | Pending => ret Pending
  end.

(** [p.catch(onRejected)] *)
Definition catch {A : Type} (p : Promise A) (onRejected : Reason -> Promise A) : Promise A :=
  s <- p ;;
  match s with
  | Fulfilled value => ret (Fulfilled value)
  | Rejected reason => onRejected reason
  | Pending => ret Pending
  end.

(** The promise a [new Promise((resolve) => ...)] makes of a chain that calls
    [resolve] when it is fulfilled and has no handler for a rejection. *)
Definition resolves_only {A : Type} (chain : Promise A) : Promise A :=
  s <- chain ;;
  match s with
  | Fulfilled value => ret (Fulfilled value)
  | Rejected _ => ret Pending
  | Pending => ret Pending
  end.

(** The promises of fs-extra: fulfilled, or rejected with an [Error]. *)
Definition fs_promise {A : Type} (c : Call) (op : P.(Machine) -> (string + A) * P.(Machine))
  : Promise A :=
  r <- call c op ;;
  match r with
  | inl message => ret (Rejected (Error message))
  | inr value => ret (Fulfilled value)
  end.

(** [err.message] in a template string. *)
Definition message_of (err : Reason) : string :=
  match err with
  | Error message => message
  | _ => "undefined"
  end.

(** [async.eachSeries(coll, iteratee, callback)] with an iteratee that calls
    [done()] without an error, or never: the iteratee returns the variables
    it closes over as they are when it calls [done], and the result is
    their value when the final callback runs. *)
Fixpoint eachSeries {A S : Type} (coll : list A) (iteratee : A -> S -> IO (option S))
    (s : S) : IO (option S) :=
  match coll with
  | [] => ret (Some s)
  | item :: rest =>
      r <- iteratee item s ;;
      match r with
      | Some s' => eachSeries rest iteratee s'
      | None => ret None
      end
  end.

(* --------------------------------------------------------------- *)
(** *** getAll *)

Definition getAll_item (ext : vscode.Extension) : IExtension :=
  let pj := ext.(vscode.packageJSON) in
  {| id := pj.(vscode.publisher) ++ "." ++ pj.(vscode.name);
     name := pj.(vscode.name);
     publisher := pj.(vscode.publisher);
     version := pj.(vscode.version);
     __metadata := if truthy pj.(vscode.__metadata) then pj.(vscode.__metadata) else None;
     zip := None;
     path := None |}.

Definition getAll (includeBuiltin : bool) : list IExtension :=
  fold_left
    (fun result ext =>
       if includeBuiltin || negb ext.(vscode.packageJSON).(vscode.isBuiltin)
       then push result (getAll_item ext)
       else result)
    env.(all) [].

(* --------------------------------------------------------------- *)
(** *** downloadExtension *)

Definition download_options (extension : IExtension) : Https.RequestOptions :=
  {| Https.host := extension.(publisher) ++ ".gallery.vsassets.io";
     Https.path := "/_apis/public/gallery/publisher/" ++ extension.(publisher)
                   ++ "/extension/" ++ extension.(name) ++ "/" ++ extension.(version)
                   ++ "/assetbyname/Microsoft.VisualStudio.Services.VSIXPackage";
     Https.agent := if truthy env.(proxy) then env.(proxy) else None |}.

Definition downloadExtension (extension : IExtension) : Promise IExtension :=
  let postfix := "." ++ extension.(id) ++ ".zip" in
  r <- call (CallTmpFile postfix) (P.(tmp_file) postfix) ;;
  match r with
  | inl err => reject err
  | inr filepath =>
      call (CallCreateWriteStream filepath)
           (fun m => (tt, P.(fs_createWriteStream) filepath m)) ;;;
      let options := download_options extension in
      res <- call (CallHttpsGet options) (P.(https_get) options) ;;
      match res with
      | inl err => reject err
      | inr statusCode =>
          if (statusCode =? 200)%nat
          then
            finished <- call (CallPipe filepath) (P.(pipe) filepath) ;;
            match finished with
            | None => resolve (with_zip extension filepath)
            | Some err => reject err
            end
          else reject Undefined
      end
  end.

(* --------------------------------------------------------------- *)
(** *** extractExtension *)

Definition cannot_extract (extension : IExtension) (why : string) : Reason :=
  Message ("Cannot extract extension: " ++ extension.(id) ++ ". " ++ why).

Definition extractExtension (extension : IExtension) : Promise IExtension :=
  match extension.(zip) with
  | Some zipFilepath =>
      if zipFilepath =? ""
      then reject (cannot_extract extension "Extension zip file not found.")
      else
        let postfix := "." ++ extension.(id) in
        r <- call (CallTmpDir postfix) (P.(tmp_dir) postfix) ;;
        match r with
        | inl _ => reject (cannot_extract extension "Access temporary directory denied.")
        | inr dirPath =>
            err2 <- call (CallExtractZip zipFilepath dirPath)
                         (P.(extractZip) zipFilepath dirPath) ;;
            match err2 with
            | Some message => reject (cannot_extract extension message)
            | None =>
                let extPath :=
                  P.(path_join) env.(extensionsPath)
                    (extension.(publisher) ++ "." ++ extension.(name) ++ "-"
                     ++ extension.(version)) in
                let src := P.(path_join) dirPath "extension" in
                catch
                  (then_
                     (then_ (fs_promise (CallEmptyDir extPath) (P.(fs_emptyDir) extPath))
                        (fun _ => fs_promise (CallCopy src extPath)
                                             (P.(fs_copy) src extPath)))
                     (fun _ => resolve (with_path extension extPath)))
                  (fun err3 => reject (cannot_extract extension (message_of err3)))
            end
        end
  | None => reject (cannot_extract extension "Extension zip file not found.")
  end.

(* --------------------------------------------------------------- *)
(** *** updateMetadata *)

Definition cannot_update_metadata (extension : IExtension) : Reason :=
  Message ("Cannot update extension's metadata: " ++ extension.(id) ++ ".").

(** [{ ...packageJSON, __metadata: extension.__metadata }] *)
Definition with_metadata (packageJSON : Json) (metadata : string) : Json :=
  JObject (set_property (own_properties packageJSON) "__metadata" (JString metadata)).

(** The branch of [updateMetadata] taken when its test succeeds. *)
Definition rewrite_manifest (extension : IExtension) (metadata extPath : string)
  : Promise unit :=
  let filepath := P.(path_join) extPath "package.json" in
  catch
    (then_
       (then_ (fs_promise (CallReadJson filepath) (P.(fs_readJson) filepath))
          (fun packageJSON =>
             let content := with_metadata packageJSON metadata in
             fs_promise (CallWriteJson filepath content)
                        (P.(fs_writeJson) filepath content)))
       (fun _ => resolve tt))
    (fun _ => reject (cannot_update_metadata extension)).

Definition updateMetadata (extension : option IExtension) : Promise unit :=
  match extension with
  | Some e =>
      match e.(__metadata), e.(path) with
      | Some metadata, Some extPath =>
          if negb (metadata =? "") && negb (extPath =? "")
          then rewrite_manifest e metadata extPath
          else resolve tt
      | _, _ => resolve tt
      end
  | None => resolve tt
  end.

(* --------------------------------------------------------------- *)
(** *** uninstallExtension *)

Definition uninstallExtension (extension : IExtension) : Promise IExtension :=
  let localExtension := getExtension env extension.(id) in
  let version' :=
    match localExtension with
    | Some l => l.(vscode.packageJSON).(vscode.version)
    | None => extension.(version)
    end in
  let target :=
    P.(path_join) env.(extensionsPath)
      (extension.(publisher) ++ "." ++ extension.(name) ++ "-" ++ version') in
  err <- call (CallRemove target) (P.(fs_remove) target) ;;
  match err with
  | inl _ => reject (Error ("Cannot uninstall extension: " ++ extension.(id)))
  | inr _ => resolve extension
  end.

(* --------------------------------------------------------------- *)
(** *** _getDifferentExtensions *)

(** The body of the first loop ("Find added & updated extensions"), on the
    result object and [reservedExtensionIDs]. *)
Definition find_added_updated (st : Delta.t * list string) (ext : IExtension)
  : Delta.t * list string :=
  let (result, reservedExtensionIDs) := st in
  match getExtension env ext.(id) with
  | Some localExtension =>
      if localExtension.(vscode.packageJSON).(vscode.version) =? ext.(version)
      then (result, push reservedExtensionIDs ext.(id))
      else (Delta.mk result.(Delta.added) result.(Delta.removed)
                     (push result.(Delta.updated) ext),
            reservedExtensionIDs)
  | None =>
      (Delta.mk (push result.(Delta.added) ext) result.(Delta.removed)
                result.(Delta.updated),
       reservedExtensionIDs)
  end.

(** The body of the second loop, over the local extensions. *)
Definition find_removed (reservedExtensionIDs : list string) (result : Delta.t)
    (ext : IExtension) : Delta.t :=
  if (indexOf reservedExtensionIDs ext.(id) =? -1)%Z
  then Delta.mk result.(Delta.added) (push result.(Delta.removed) ext)
                result.(Delta.updated)
  else result.

(** The result object [_getDifferentExtensions] resolves with; an absent
    list ([null] or [undefined]) is [None]. *)
Definition different_extensions (extensions : option (list IExtension)) : Delta.t :=
  let result := Delta.mk [] [] [] in
  match extensions with
  | Some extensions =>
      let (result, reservedExtensionIDs) :=
        fold_left find_added_updated extensions (result, []) in
      let localExtensions := getAll false in
      fold_left (find_removed reservedExtensionIDs) localExtensions result
  | None => result
  end.

Definition _getDifferentExtensions (extensions : option (list IExtension))
  : Promise Delta.t :=
  resolve (different_extensions extensions).

(* --------------------------------------------------------------- *)
(** *** _addExtensions *)

(** Entry into an iteratee: [steps] has been incremented and, with the
    indicator on, the first label of the record is shown. *)
Definition attempt (b : Batch) (showIndicator : bool) (label : string)
    (steps total : nat) (item : IExtension) : IO unit :=
  emit (Attempt b item) ;;;
  when showIndicator (showSpinner (label ++ item.(id)) steps total).

(** The promise chain of one added record up to the installation. *)
Definition add_install (showIndicator : bool) (steps total : nat) (item : IExtension)
  : Promise IExtension :=
  then_ (downloadExtension item)
    (fun extension =>
       when showIndicator
         (showSpinner ("Syncing: Installing extension: " ++ item.(id)) steps total) ;;;
       extractExtension extension).

(** The chain up to its last [then]. *)
Definition add_pipeline (showIndicator : bool) (steps total : nat) (item : IExtension)
  : Promise unit :=
  then_ (add_install showIndicator steps total item)
    (fun extension => updateMetadata (Some extension)).

Definition add_iteratee (showIndicator : bool) (total : nat) (item : IExtension)
    (st : nat * Added.t) : IO (option (nat * Added.t)) :=
  let (steps, result) := st in
  let steps := S steps in
  attempt AddBatch showIndicator "Syncing: Downloading extension: " steps total item ;;;
  settled <-
    catch
      (then_ (add_pipeline showIndicator steps total item)
         (fun _ =>
            emit (Done AddBatch item true) ;;;
            resolve (steps, Added.mk (push result.(Added.added) item)
                                     result.(Added.addedErrors))))
      (fun _ =>
         emit (Done AddBatch item false) ;;;
         resolve (steps, Added.mk result.(Added.added)
                                  (push result.(Added.addedErrors) item))) ;;
  match settled with
  | Fulfilled st => ret (Some st)
  | Rejected _ => ret None
  | Pending => ret None
  end.

Definition _addExtensions (options : ISyncOptions) : Promise Added.t :=
  let showIndicator := showIndicator_or_false options in
  r <- eachSeries options.(extensions) (add_iteratee showIndicator options.(total))
                  (options.(progress), Added.mk [] []) ;;
  match r with
  | Some (_, result) => resolve result
  | None => ret Pending
  end.

(* --------------------------------------------------------------- *)
(** *** _updateExtensions *)

(** The promise chain of one updated record up to the installation. *)
Definition update_install (showIndicator : bool) (steps total : nat) (item : IExtension)
  : Promise IExtension :=
  then_
    (then_ (downloadExtension item)
       (fun extension =>
          when showIndicator
            (showSpinner ("Syncing: Removing outdated extension: " ++ item.(id))
                         steps total) ;;;
          uninstallExtension extension))
    (fun extension =>
       when showIndicator
         (showSpinner ("Syncing: Installing extension: " ++ item.(id)) steps total) ;;;
       extractExtension extension).

Definition update_pipeline (showIndicator : bool) (steps total : nat) (item : IExtension)
  : Promise unit :=
  then_ (update_install showIndicator steps total item)
    (fun extension => updateMetadata (Some extension)).

Definition update_iteratee (showIndicator : bool) (total : nat) (item : IExtension)
    (st : nat * Updated.t) : IO (option (nat * Updated.t)) :=
  let (steps, result) := st in
  let steps := S steps in
  attempt UpdateBatch showIndicator "Syncing: Downloading extension: " steps total item ;;;
  settled <-
    catch
      (then_ (update_pipeline showIndicator steps total item)
         (fun _ =>
            emit (Done UpdateBatch item true) ;;;
            resolve (steps, Updated.mk (push result.(Updated.updated) item)
                                     result.(Updated.updatedErrors))))
      (fun _ =>
         emit (Done UpdateBatch item false) ;;;
         resolve (steps, Updated.mk result.(Updated.updated)
                                  (push result.(Updated.updatedErrors) item))) ;;
  match settled with
  | Fulfilled st => ret (Some st)
  | Rejected _ => ret None
  | Pending => ret None
  end.

Definition _updateExtensions (options : ISyncOptions) : Promise Updated.t :=
  let showIndicator := showIndicator_or_false options in
  r <- eachSeries options.(extensions) (update_iteratee showIndicator options.(total))
                  (options.(progress), Updated.mk [] []) ;;
  match r with
  | Some (_, result) => resolve result
  | None => ret Pending
  end.

(* --------------------------------------------------------------- *)
(** *** _removeExtensions *)

Definition remove_iteratee (showIndicator : bool) (total : nat) (item : IExtension)
    (st : nat * Removed.t) : IO (option (nat * Removed.t)) :=
  let (steps, result) := st in
  let steps := S steps in
  attempt RemoveBatch showIndicator "Syncing: Uninstalling extension: " steps total item ;;;
  settled <-
    catch
      (then_ (uninstallExtension item)
         (fun _ =>
            emit (Done RemoveBatch item true) ;;;
            resolve (steps, Removed.mk (push result.(Removed.removed) item)
                                     result.(Removed.removedErrors))))
      (fun _ =>
         emit (Done RemoveBatch item false) ;;;
         resolve (steps, Removed.mk result.(Removed.removed)
                                  (push result.(Removed.removedErrors) item))) ;;
  match settled with
  | Fulfilled st => ret (Some st)
  | Rejected _ => ret None
  | Pending => ret None
  end.

Definition _removeExtensions (options : ISyncOptions) : Promise Removed.t :=
  let showIndicator := showIndicator_or_false options in
  r <- eachSeries options.(extensions) (remove_iteratee showIndicator options.(total))
                  (options.(progress), Removed.mk [] []) ;;
  match r with
  | Some (_, result) => resolve result
  | None => ret Pending
  end.

(* --------------------------------------------------------------- *)
(** *** sync *)

(** The options [sync] binds the three runners to. *)
Definition add_options (diff : Delta.t) (showIndicator : bool) : ISyncOptions :=
  {| extensions := diff.(Delta.added);
     progress := 0;
     total := Delta.total diff;
     showIndicator := Some showIndicator |}.

Definition update_options (diff : Delta.t) (showIndicator : bool) : ISyncOptions :=
  {| extensions := diff.(Delta.updated);
     progress := List.length diff.(Delta.added);
     total := Delta.total diff;
     showIndicator := Some showIndicator |}.

Definition remove_options (diff : Delta.t) (showIndicator : bool) : ISyncOptions :=
  {| extensions := diff.(Delta.removed);
     progress := List.length diff.(Delta.added) + List.length diff.(Delta.updated);
     total := Delta.total diff;
     showIndicator := Some showIndicator |}.

(** The three bound tasks, each seen as a promise of the keys it adds. *)
Definition sync_tasks (diff : Delta.t) (showIndicator : bool) : list (Promise Status.t) :=
  [ then_ (_addExtensions (add_options diff showIndicator))
          (fun value => resolve (Status.of_added value));
    then_ (_updateExtensions (update_options diff showIndicator))
          (fun value => resolve (Status.of_updated value));
    then_ (_removeExtensions (remove_options diff showIndicator))
          (fun value => resolve (Status.of_removed value)) ].

(** The iteratee of [sync]: the task's promise has a [then] and no [catch],
    so [done] is called only when the task is fulfilled. *)
Definition sync_iteratee (task : Promise Status.t) (result : Status.t)
  : IO (option Status.t) :=
  settled <- then_ task (fun value => resolve (Status.assign result value)) ;;
  match settled with
  | Fulfilled result' => ret (Some result')
  | Rejected _ => ret None
  | Pending => ret None
  end.

Definition obsolete_file : string := P.(path_join) env.(extensionsPath) ".obsolete".

Definition sync (extensions : option (list IExtension)) (showIndicator : bool)
  : Promise ISyncStatus :=
  resolves_only
    (then_ (_getDifferentExtensions extensions)
       (fun diff =>
          r <- eachSeries (sync_tasks diff showIndicator) sync_iteratee Status.empty ;;
          match r with
          | Some extension =>
              let result := {| extension := Some extension |} in
              when showIndicator (clearSpinner "") ;;;
              catch
                (then_ (fs_promise (CallRemove obsolete_file) (P.(fs_remove) obsolete_file))
                   (fun _ => resolve result))
                (fun _ => resolve result)
          | None => ret Pending
          end)).

End Extension.

Arguments Rejected {A} reason.
Arguments Pending {A}.

(* ================================================================= *)
(** ** A simulated platform *)

(** A machine whose state is the list of directories and files present, and
    whose faults are fixed in advance: publishers the gallery answers 404
    for, manifests that cannot be read, and paths that cannot be removed. *)
Module Sim.

Record Faults : Type := mkFaults {
  offline : list string;
  unreadable : list string;
  locked : list string
}.

Definition no_faults : Faults := mkFaults [] [] [].

Definition mem (x : string) (l : list string) : bool := existsb (String.eqb x) l.

Definition join (a b : string) : string := a ++ "/" ++ b.

Definition platform (f : Faults) : Platform :=
  {| Machine := list string;
     path_join := join;
     tmp_file := fun postfix m => (inr ("/tmp/file" ++ postfix), m);
     tmp_dir := fun postfix m => (inr ("/tmp/dir" ++ postfix), m);
     fs_createWriteStream := fun filepath m => filepath :: m;
     https_get := fun options m =>
       (inr (if existsb (fun p => (p ++ ".gallery.vsassets.io") =? options.(Https.host))
                        f.(offline)
             then 404 else 200), m);
     pipe := fun _ m => (None, m);
     extractZip := fun _ dir m => (None, join dir "extension" :: m);
     fs_emptyDir := fun dir m => (inr tt, dir :: m);
     fs_copy := fun _ _ m => (inr tt, m);
     fs_readJson := fun filepath m =>
       (if mem filepath f.(unreadable)
        then inl "ENOENT"
        else inr (JObject [("name", JString "x")]), m);
     fs_writeJson := fun _ _ m => (inr tt, m);
     fs_remove := fun target m =>
       if mem target f.(locked)
       then (inl "EPERM", m)
       else (inr tt, filter (fun p => negb (p =? target)) m) |}.

Definition start (f : Faults) : World (platform f) := mkWorld (platform f) [] [].

(** A desired record, as a snapshot lists it. *)
Definition record (publisher name version : string) (metadata : option string)
  : IExtension :=
  mkIExtension (publisher ++ "." ++ name) name publisher version metadata None None.

(** A registered, user-installed extension. *)
Definition installed (publisher name version : string) : vscode.Extension :=
  vscode.mkExtension (vscode.mkPackageJSON name publisher version false None).

Definition builtin (publisher name version : string) : vscode.Extension :=
  vscode.mkExtension (vscode.mkPackageJSON name publisher version true None).

Definition env_of (registry : list vscode.Extension) : Env :=
  mkEnv registry "/ext" None.

(** Three faulty machines: the gallery of publisher [bad] is down; the
    manifest of [b.y] at 1.0 cannot be read; the marker file cannot be
    removed. *)
Definition gallery_down : Faults := mkFaults ["bad"] [] [].

Definition manifest_unreadable : Faults := mkFaults [] ["/ext/b.y-1.0/package.json"] [].

Definition marker_locked : Faults := mkFaults [] [] ["/ext/.obsolete"].


End Sim.


Unset Implicit Arguments.

(* ================================================================= *)
(** ** Notions the statements use *)

(** How the first loop of the differ classes a desired record. *)
Definition is_added (env : Env) (ext : IExtension) : bool :=
  match getExtension env ext.(id) with
  | Some _ => false
  | None => true
  end.

Definition is_updated (env : Env) (ext : IExtension) : bool :=
  match getExtension env ext.(id) with
  | Some l => negb (l.(vscode.packageJSON).(vscode.version) =? ext.(version))
  | None => false
  end.

Definition is_reserved (env : Env) (ext : IExtension) : bool :=
  match getExtension env ext.(id) with
  | Some l => l.(vscode.packageJSON).(vscode.version) =? ext.(version)
  | None => false
  end.

(** [reservedExtensionIDs] after the first loop. *)
Definition reserved_ids (env : Env) (desired : list IExtension) : list string :=
  map id (filter (is_reserved env) desired).

Definition ids (l : list IExtension) : list string := map id l.

(** A desired record is reserved when the registry holds its identifier at
    the same version string. *)
Definition reserved (env : Env) (e : IExtension) : Prop :=
  exists l, getExtension env e.(id) = Some l
            /\ l.(vscode.packageJSON).(vscode.version) = e.(version).

(** *** Observations on a run *)

(** The entries into and exits from iteratees, in order. *)
Inductive Mark : Type :=
| Entered (b : Batch) (item : IExtension)
| Finished (b : Batch) (item : IExtension).

Fixpoint marks (evs : list Event) : list Mark :=
  match evs with
  | [] => []
  | Attempt b item :: rest => Entered b item :: marks rest
  | Done b item _ :: rest => Finished b item :: marks rest
  | _ :: rest => marks rest
  end.

(** The marks of a batch whose records are processed one at a time, in
    order. *)
Definition record_marks (b : Batch) (items : list IExtension) : list Mark :=
  flat_map (fun item => [Entered b item; Finished b item]) items.

(** How many records have been attempted. *)
Fixpoint attempts (evs : list Event) : nat :=
  match evs with
  | [] => 0
  | Attempt _ _ :: rest => S (attempts rest)
  | _ :: rest => attempts rest
  end.

(** The step values reported to the indicator. *)
Fixpoint reported (evs : list Event) : list nat :=
  match evs with
  | [] => []
  | ShowSpinner _ step _ :: rest => step :: reported rest
  | _ :: rest => reported rest
  end.

(** An event of the inside of one record's pipeline: a library call, or a
    report of step [s] out of [t]. *)
Definition quiet (s t : nat) (e : Event) : Prop :=
  match e with
  | ShowSpinner _ s' t' => s' = s /\ t' = t
  | Called _ => True
  | _ => False
  end.

(** The events of a batch that starts with its counter at [s]: each record is
    entered, reports only the step [S s] (first of all when the indicator is
    on), and is finished before the next one is entered at [S s]. *)
Inductive batch_shape (b : Batch) (showIndicator : bool) (t : nat)
  : nat -> list IExtension -> list Event -> Prop :=
| shape_nil (s : nat) : batch_shape b showIndicator t s [] []
| shape_cons (s : nat) (item : IExtension) (rest : list IExtension)
    (body : list Event) (ok : bool) (evs : list Event) :
    Forall (quiet (S s) t) body ->
    (showIndicator = true ->
     exists message body', body = ShowSpinner message (S s) t :: body') ->
    batch_shape b showIndicator t (S s) rest evs ->
    batch_shape b showIndicator t s (item :: rest)
                (Attempt b item :: body ++ Done b item ok :: evs).

(** Every report gives the number of records attempted so far, counting from
    [n], out of [t]. *)
Fixpoint steps_track (n t : nat) (evs : list Event) : Prop :=
  match evs with
  | [] => True
  | Attempt _ _ :: rest => steps_track (S n) t rest
  | ShowSpinner _ s t' :: rest => s = n /\ t' = t /\ steps_track n t rest
  | _ :: rest => steps_track n t rest
  end.

(** *** The three batch runners in one form *)

Definition is_rejected {A : Type} (s : Settled A) : bool :=
  match s with
  | Rejected _ => true
  | _ => false
  end.

Definition batch_label (b : Batch) : string :=
  match b with
  | AddBatch => "Syncing: Downloading extension: "
  | UpdateBatch => "Syncing: Downloading extension: "
  | RemoveBatch => "Syncing: Uninstalling extension: "
  end.

(** The promise an iteratee of batch [b] settles its record by. *)
Definition batch_pipeline {P : Platform} (env : Env) (b : Batch) (showIndicator : bool)
    (steps total : nat) (item : IExtension) : Promise P unit :=
  match b with
  | AddBatch => add_pipeline env showIndicator steps total item
  | UpdateBatch => update_pipeline env showIndicator steps total item
  | RemoveBatch => then_ (uninstallExtension env item) (fun _ => resolve tt)
  end.

(** A batch runner by its two result lists (the success list first). *)
Definition run_batch {P : Platform} (env : Env) (b : Batch) (options : ISyncOptions)
  : IO P (option (list IExtension * list IExtension)) :=
  fun w =>
    match b with
    | AddBatch =>
        match _addExtensions env options w with
        | (Fulfilled r, w') => (Some (r.(Added.added), r.(Added.addedErrors)), w')
        | (_, w') => (None, w')
        end
    | UpdateBatch =>
        match _updateExtensions env options w with
        | (Fulfilled r, w') => (Some (r.(Updated.updated), r.(Updated.updatedErrors)), w')
        | (_, w') => (None, w')
        end
    | RemoveBatch =>
        match _removeExtensions env options w with
        | (Fulfilled r, w') => (Some (r.(Removed.removed), r.(Removed.removedErrors)), w')
        | (_, w') => (None, w')
        end
    end.

(** The loop the three runners share: enter the record, settle its pipeline,
    push it on one of the two lists, go on with the next. *)
Fixpoint series {P : Platform} (env : Env) (b : Batch) (showIndicator : bool) (total : nat)
    (items : list IExtension) (steps : nat) (acc : list IExtension * list IExtension)
  : IO P (option (list IExtension * list IExtension)) :=
  match items with
  | [] => ret (Some acc)
  | item :: rest =>
      fun w =>
        let w1 := snd (attempt b showIndicator (batch_label b) (S steps) total item w) in
        match batch_pipeline env b showIndicator (S steps) total item w1 with
        | (Fulfilled _, w2) =>
            series env b showIndicator total rest (S steps)
                   (push (fst acc) item, snd acc)
                   (snd (emit (Done b item true) w2))
        | (Rejected _, w2) =>
            series env b showIndicator total rest (S steps)
                   (fst acc, push (snd acc) item)
                   (snd (emit (Done b item false) w2))
        | (Pending, w2) => (None, w2)
        end
  end.



(** The run of a batch from a world, with its counter at [s]: the record is
    entered; the promise of its iteratee runs from there until it has
    settled, and what lies between the entry and the call of [done] are the
    reports and library calls of that run, no entry and no exit of any
    record; only then is the next record entered, in the world the call of
    [done] left. *)
Inductive batch_run {P : Platform} (env : Env) (b : Batch) (showIndicator : bool)
    (t : nat)
  : nat -> list IExtension -> World P -> list Event -> World P -> Prop :=
| run_nil (s : nat) (w : World P) : batch_run env b showIndicator t s [] w [] w
| run_cons (s : nat) (item : IExtension) (rest : list IExtension)
    (w w2 w' : World P) (settled : Settled unit) (body evs : list Event) :
    batch_pipeline env b showIndicator (S s) t item
      (snd (attempt b showIndicator (batch_label b) (S s) t item w)) = (settled, w2) ->
    settled <> Pending ->
    events w2 = (events w ++ Attempt b item :: body)%list ->
    Forall (quiet (S s) t) body ->
    batch_run env b showIndicator t (S s) rest
      (snd (emit (Done b item (negb (is_rejected settled))) w2)) evs w' ->
    batch_run env b showIndicator t s (item :: rest) w
      (Attempt b item :: body ++ Done b item (negb (is_rejected settled)) :: evs) w'.

(** A log in which records are processed one at a time: a record is entered
    only when none is open, every report and library call lies between the
    entry of a record and the call of [done] for that same record, and no
    record is left open at the end. *)
Fixpoint one_at_a_time (open : option (Batch * IExtension)) (evs : list Event) : Prop :=
  match evs with
  | [] => open = None
  | Attempt b item :: rest => open = None /\ one_at_a_time (Some (b, item)) rest
  | Done b item _ :: rest => open = Some (b, item) /\ one_at_a_time None rest
  | ShowSpinner _ _ _ :: rest => open <> None /\ one_at_a_time open rest
  | Called _ :: rest => open <> None /\ one_at_a_time open rest
  | ClearSpinner _ :: rest => False
  end.

(** *** Properties of code *)

(** Code that appends to the observations, and only events of kind [Q]. *)
Definition emits {P : Platform} {X : Type} (Q : Event -> Prop) (m : IO P X) : Prop :=
  forall w, exists new, events (snd (m w)) = (events w ++ new)%list /\ Forall Q new.

Definition only_calls (e : Event) : Prop :=
  match e with
  | Called _ => True
  | _ => False
  end.

(** A promise that settles wherever it runs. *)
Definition settles {P : Platform} {A : Type} (p : Promise P A) : Prop :=
  forall w, fst (p w) <> Pending.

(** *** Further notions *)

(** The property read [o[k]] on the members of an object. *)
Fixpoint get_property (members : list (string * Json)) (k : string) : option Json :=
  match members with
  | [] => None
  | (k', v) :: rest => if k' =? k then Some v else get_property rest k
  end.

(** The library calls among the events, in order. *)
Fixpoint calls (evs : list Event) : list Call :=
  match evs with
  | [] => []
  | Called c :: rest => c :: calls rest
  | _ :: rest => calls rest
  end.

(** A call to [Toast]. *)
Definition is_toast (e : Event) : Prop :=
  match e with
  | ShowSpinner _ _ _ => True
  | ClearSpinner _ => True
  | _ => False
  end.

(** The folder of an extension at a version, under the extensions root. *)
Definition extension_dir (P : Platform) (env : Env) (e : IExtension) (v : string) : string :=
  P.(path_join) env.(extensionsPath) (e.(publisher) ++ "." ++ e.(name) ++ "-" ++ v).

(** The version [uninstallExtension] removes: the registered one when the id
    is registered. *)
Definition installed_version (env : Env) (e : IExtension) : string :=
  match getExtension env e.(id) with
  | Some l => l.(vscode.packageJSON).(vscode.version)
  | None => e.(version)
  end.

(** A call that leaves every installed folder as it is. *)
Definition keeps_folders (c : Call) : Prop :=
  match c with
  | CallRemove _ => False
  | _ => True
  end.

(** What the pipeline of a record may do to the folders: remove only the
    folder of the installed version, empty and fill only the folder of the
    record's own version, and write only the manifest of that folder. *)
Definition touches_own_folders (P : Platform) (env : Env) (item : IExtension) (e : Event)
  : Prop :=
  match e with
  | Called (CallRemove target) =>
      target = extension_dir P env item (installed_version env item)
  | Called (CallEmptyDir dir) => dir = extension_dir P env item item.(version)
  | Called (CallCopy _ dest) => dest = extension_dir P env item item.(version)
  | Called (CallWriteJson filepath _) =>
      filepath = P.(path_join) (extension_dir P env item item.(version)) "package.json"
  | Called _ => True
  | _ => True
  end.

(** What a pass with the delta [d] may do to the folders: remove only the
    marker file and the folders of the installed versions of the updated and
    removed records; empty and fill only the folders of the added and updated
    records at their own version; write only the manifests of these. *)
Definition pass_touches (P : Platform) (env : Env) (d : Delta.t) (e : Event) : Prop :=
  let installs dir :=
    exists item,
      (In item d.(Delta.added) \/ In item d.(Delta.updated))
      /\ dir = extension_dir P env item item.(version) in
  match e with
  | Called (CallRemove target) =>
      target = obsolete_file P env
      \/ exists item,
           (In item d.(Delta.updated) \/ In item d.(Delta.removed))
           /\ target = extension_dir P env item (installed_version env item)
  | Called (CallEmptyDir dir) => installs dir
  | Called (CallCopy _ dest) => installs dest
  | Called (CallWriteJson filepath _) =>
      exists dir, installs dir /\ filepath = P.(path_join) dir "package.json"
  | _ => True
  end.

(** An event that leaves the extension folders as they are: no removal, no
    emptying, no copy and no manifest written. *)
Definition keeps_installation (e : Event) : Prop :=
  match e with
  | Called (CallRemove _) => False
  | Called (CallEmptyDir _) => False
  | Called (CallCopy _ _) => False
  | Called (CallWriteJson _ _) => False
  | _ => True
  end.

(** An event that is no emptying of a folder. *)
Definition empties_nothing (e : Event) : Prop :=
  match e with
  | Called (CallEmptyDir _) => False
  | _ => True
  end.

(** An event that is no removal. *)
Definition removes_nothing (e : Event) : Prop :=
  match e with
  | Called c => keeps_folders c
  | _ => True
  end.

(** A promise that appends only events of kind [Q] and, when it is
    fulfilled, has a value in [R]. *)
Definition yields {P : Platform} {A : Type} (Q : Event -> Prop) (R : A -> Prop)
    (p : Promise P A) : Prop :=
  forall w,
  exists new,
    events (snd (p w)) = (events w ++ new)%list
    /\ Forall Q new
    /\ forall v, fst (p w) = Fulfilled v -> R v.

(* ================================================================= *)
(** ** The commands of [extension.ts] *)

(** What a JavaScript expression completes with: a value, or a [TypeError]
    thrown on reading a property of [undefined]. *)
Inductive Completion (A : Type) : Type :=
| Returns (a : A)
| Throws.

Arguments Returns {A} a.
Arguments Throws {A}.

(** The argument of [_isExtensionsSynced]. *)
Module Synced.
Record t : Type := mk {
  updated : list ISyncStatus;
  removed : list ISyncStatus
}.
End Synced.

(** [list.length > 0], on a list that may be [undefined]. *)
Definition length_gt_0 (l : option (list IExtension)) : Completion bool :=
  match l with
  | Some l => Returns (0 <? List.length l)%nat
  | None => Throws
  end.

(** [a || b]: [b] is evaluated only when [a] is false. *)
Definition or_else (a b : Completion bool) : Completion bool :=
  match a with
  | Returns true => Returns true
  | Returns false => b
  | Throws => Throws
  end.

(** The test of the [if] in the loop of [_isExtensionsSynced]. *)
Definition extension_changed (item : ISyncStatus) : Completion bool :=
  match item.(extension) with
  | Some ext =>
      or_else (or_else (length_gt_0 ext.(Status.added))
                       (length_gt_0 ext.(Status.removed)))
              (length_gt_0 ext.(Status.updated))
  | None => Returns false
  end.

Fixpoint _isExtensionsSynced_loop (updated : list ISyncStatus) : Completion bool :=
  match updated with
  | [] => Returns false
  | item :: rest =>
      match extension_changed item with
      | Returns true => Returns true
      | Returns false => _isExtensionsSynced_loop rest
      | Throws => Throws
      end
  end.

Definition _isExtensionsSynced (items : Synced.t) : Completion bool :=
  _isExtensionsSynced_loop items.(Synced.updated).

(** A status whose [extension] object, when present, has its three success
    lists. *)
Definition has_lists (item : ISyncStatus) : Prop :=
  match item.(extension) with
  | Some ext =>
      ext.(Status.added) <> None /\ ext.(Status.removed) <> None
      /\ ext.(Status.updated) <> None
  | None => True
  end.

(** A status that reports an extension added, removed or updated. *)
Definition reports_change (item : ISyncStatus) : Prop :=
  exists ext,
    item.(extension) = Some ext
    /\ ((exists x l, ext.(Status.added) = Some (x :: l))
        \/ (exists x l, ext.(Status.removed) = Some (x :: l))
        \/ (exists x l, ext.(Status.updated) = Some (x :: l))).

(** What a promise of the collaborators is rejected with, by what
    [err.code] reads: a code, no code, or a [TypeError] when the reason is
    [undefined]. *)
Inductive Failure : Type :=
| Failed (code : option nat)
| FailedWithUndefined.

(** The settings [prepareUploadSettings] and [prepareDownloadSettings] resolve
    with: the token, the gist id, and whatever else they hold. *)
Module Settings.
Record t (Rest : Type) : Type := mk {
  token : string;
  id : string;
  rest : Rest
}.
Arguments mk {Rest} token id rest.
Arguments token {Rest} t.
Arguments id {Rest} t.
Arguments rest {Rest} t.

(** [Object.assign({}, settings, { id })] *)
Definition with_id {Rest : Type} (settings : t Rest) (gistId : string) : t Rest :=
  mk settings.(token) gistId settings.(rest).
End Settings.

(** A gist, as the commands read it. *)
Module Gist.
Record t (Files : Type) : Type := mk {
  id : string;
  files : Files
}.
Arguments mk {Files} id files.
Arguments id {Files} t.
Arguments files {Files} t.
End Gist.

Set Implicit Arguments.

(** The collaborators of the commands ([Syncing], [Config], [Gist]): each
    call takes their state and returns what its promise settles with and
    their new state. The api object [Gist.create(token, proxy)] is given by
    its two arguments. *)
Record Services : Type := mkServices {
  Backend : Type;
  Rest : Type;
  Configs : Type;
  Files : Type;
  syncing_proxy : Backend -> option string;
  prepareUploadSettings : bool -> Backend -> (Failure + Settings.t Rest) * Backend;
  prepareDownloadSettings : bool -> Backend -> (Failure + Settings.t Rest) * Backend;
  getConfigs : bool -> bool -> Backend -> (Failure + Configs) * Backend;
  findAndUpdate : string -> option string -> string -> Configs -> bool -> bool ->
                  Backend -> (Failure + Gist.t Files) * Backend;
  api_get : string -> option string -> string -> bool ->
            Backend -> (Failure + Gist.t Files) * Backend;
  saveConfigs : Files -> bool -> Backend -> (Failure + Synced.t) * Backend;
  saveSettings : Settings.t Rest -> Backend -> (Failure + unit) * Backend;
  clearGitHubToken : Backend -> Backend;
  clearGistID : Backend -> Backend
}.

Section Commands.

Variable S : Services.

(** What a command is seen to do. *)
Inductive Action : Type :=
| StatusInfo (message : string)
| ShowReloadBox
| SaveSettings (settings : Settings.t S.(Rest))
| ClearGitHubToken
| ClearGistID.

(** The module variables of [extension.ts] with the state of the
    collaborators, and what has been seen. *)
Record Session : Type := mkSession {
  _isSyncing : bool;
  backend : S.(Backend);
  actions : list Action
}.

(** A promise chain of a command. *)
Definition Task (A : Type) : Type := Session -> (Failure + A) * Session.

Definition done {A : Type} (a : A) : Task A := fun s => (inr a, s).

(** [p.then(f)], with [f] returning a promise or a value. *)
Definition and_then {A B : Type} (p : Task A) (f : A -> Task B) : Task B :=
  fun s =>
    match p s with
    | (inr a, s') => f a s'
    | (inl err, s') => (inl err, s')
    end.

(** [p.catch(h)] *)
Definition or_catch {A : Type} (p : Task A) (h : Failure -> Task A) : Task A :=
  fun s =>
    match p s with
    | (inr a, s') => (inr a, s')
    | (inl err, s') => h err s'
    end.

(** A call to a collaborator. *)
Definition ask {A : Type} (op : S.(Backend) -> (Failure + A) * S.(Backend)) : Task A :=
  fun s =>
    let (r, b) := op s.(backend) in
    (r, mkSession s.(_isSyncing) b s.(actions)).

Definition act (a : Action) : Task unit :=
  fun s => (inr tt, mkSession s.(_isSyncing) s.(backend) (push s.(actions) a)).

Definition tell (a : Action) (change : S.(Backend) -> S.(Backend)) : Task unit :=
  fun s => (inr tt, mkSession s.(_isSyncing) (change s.(backend)) (push s.(actions) a)).

(** [_isSyncing = b] *)
Definition set_isSyncing (b : bool) : Task unit :=
  fun s => (inr tt, mkSession b s.(backend) s.(actions)).

(** [_uploadSettings]. The promise of [saveSettings] is not returned to the
    chain: its rejection is handled nowhere and [_isSyncing = false] does not
    wait for it. *)
Definition _uploadSettings (s : Session) : Session :=
  if s.(_isSyncing) then s
  else
    snd
      (and_then (set_isSyncing true)
         (fun _ =>
            or_catch
              (and_then (ask (S.(prepareUploadSettings) true))
                 (fun settings s0 =>
                    let proxy := S.(syncing_proxy) s0.(backend) in
                    and_then (ask (S.(getConfigs) true true))
                      (fun configs =>
                         and_then
                           (ask (S.(findAndUpdate) settings.(Settings.token) proxy
                                   settings.(Settings.id) configs true true))
                           (fun gist =>
                              and_then
                                (if gist.(Gist.id) =? settings.(Settings.id)
                                 then act (StatusInfo "Syncing: Settings uploaded.")
                                 else
                                   let settings' := Settings.with_id settings gist.(Gist.id) in
                                   fun s1 =>
                                     match and_then
                                             (and_then (act (SaveSettings settings'))
                                                (fun _ => ask (S.(saveSettings) settings')))
                                             (fun _ =>
                                                act (StatusInfo "Syncing: Settings uploaded."))
                                             s1 with
                                     | (_, s2) => (inr tt, s2)
                                     end)
                                (fun _ => set_isSyncing false)))
                      s0))
              (fun _ => set_isSyncing false))
         s).

(** The handler of the inner [catch] of [_downloadSettings]; reading
    [err.code] throws when the reason is [undefined]. *)
Definition download_failed (err : Failure) : Task unit :=
  match err with
  | FailedWithUndefined => fun s => (inl (Failed None), s)
  | Failed code =>
      and_then
        (match code with
         | Some c =>
             if (c =? 401)%nat then tell ClearGitHubToken S.(clearGitHubToken)
             else if (c =? 404)%nat then tell ClearGistID S.(clearGistID)
             else done tt
         | None => done tt
         end)
        (fun _ => set_isSyncing false)
  end.

(** [_downloadSettings]. A [TypeError] thrown by [_isExtensionsSynced]
    rejects the inner chain with an error without code. *)
Definition _downloadSettings (s : Session) : Session :=
  if s.(_isSyncing) then s
  else
    snd
      (and_then (set_isSyncing true)
         (fun _ =>
            or_catch
              (and_then (ask (S.(prepareDownloadSettings) true))
                 (fun settings s0 =>
                    let proxy := S.(syncing_proxy) s0.(backend) in
                    or_catch
                      (and_then
                         (ask (S.(api_get) settings.(Settings.token) proxy
                                 settings.(Settings.id) true))
                         (fun gist =>
                            and_then (ask (S.(saveConfigs) gist.(Gist.files) true))
                              (fun synced =>
                                 and_then (act (StatusInfo "Syncing: Settings downloaded."))
                                   (fun _ =>
                                      match _isExtensionsSynced synced with
                                      | Returns true =>
                                          and_then (act ShowReloadBox)
                                            (fun _ => set_isSyncing false)
                                      | Returns false => set_isSyncing false
                                      | Throws => fun s1 => (inl (Failed None), s1)
                                      end))))
                      download_failed
                      s0))
              (fun _ => set_isSyncing false))
         s).

End Commands.

Unset Implicit Arguments.

(* ================================================================= *)
(** ** The differ *)

Section Differ.

Variable env : Env.

Lemma indexOf_from_absent (arr : list string) (x : string) :
  forall i, (0 <= i)%Z -> (indexOf_from i arr x = -1)%Z <-> ~ In x arr.
Proof.
  induction arr as [|y ys IH]; simpl; intros i Hi.
  - split; auto.
  - destruct (y =? x) eqn:E.
    + apply String.eqb_eq in E. subst y. split; [lia | intros H; exfalso; auto].
    + apply String.eqb_neq in E. rewrite IH by lia. tauto.
Qed.

Lemma indexOf_absent (arr : list string) (x : string) :
  (indexOf arr x =? -1)%Z = negb (existsb (String.eqb x) arr).
Proof.
  destruct (existsb (String.eqb x) arr) eqn:E; simpl.
  - apply Z.eqb_neq. intros H. apply (indexOf_from_absent arr x 0%Z) in H; [|lia].
    apply H. apply existsb_exists in E. destruct E as (y & Hy & Hxy).
    apply String.eqb_eq in Hxy. now subst.
  - apply Z.eqb_eq. apply indexOf_from_absent; [lia|].
    intros H. assert (existsb (String.eqb x) arr = true); [|congruence].
    apply existsb_exists. exists x. split; auto. apply String.eqb_refl.
Qed.

Lemma getAll_from (includeBuiltin : bool) (registry : list vscode.Extension) :
  forall acc,
    fold_left
      (fun result ext =>
         if includeBuiltin || negb ext.(vscode.packageJSON).(vscode.isBuiltin)
         then push result (getAll_item ext)
         else result)
      registry acc
    = (acc ++ map getAll_item
               (filter (fun ext => includeBuiltin
                                   || negb ext.(vscode.packageJSON).(vscode.isBuiltin))
                       registry))%list.
Proof.
  induction registry as [|ext rest IH]; simpl; intros acc.
  - now rewrite app_nil_r.
  - rewrite IH. destruct (includeBuiltin || _); simpl; auto.
    unfold push. now rewrite <- app_assoc.
Qed.

Lemma getAll_filter (includeBuiltin : bool) :
  getAll env includeBuiltin
  = map getAll_item
      (filter (fun ext => includeBuiltin
                          || negb ext.(vscode.packageJSON).(vscode.isBuiltin))
              env.(all)).
Proof. unfold getAll. now rewrite getAll_from. Qed.

Lemma first_loop (desired : list IExtension) :
  forall d rs,
    fold_left (find_added_updated env) desired (d, rs)
    = (Delta.mk (d.(Delta.added) ++ filter (is_added env) desired)
                d.(Delta.removed)
                (d.(Delta.updated) ++ filter (is_updated env) desired),
       rs ++ reserved_ids env desired)%list.
Proof.
  unfold reserved_ids.
  induction desired as [|ext rest IH]; intros d rs; cbn [fold_left filter].
  - simpl. rewrite !app_nil_r. now destruct d.
  - assert (Ha : is_added env ext = negb (is_updated env ext || is_reserved env ext)).
    { unfold is_added, is_updated, is_reserved.
      destruct (getExtension env (id ext)); auto. now destruct (_ =? _). }
    assert (Hstep : find_added_updated env (d, rs) ext
                    = if is_reserved env ext then (d, push rs (id ext))
                      else if is_updated env ext
                           then (Delta.mk d.(Delta.added) d.(Delta.removed)
                                          (push d.(Delta.updated) ext), rs)
                           else (Delta.mk (push d.(Delta.added) ext) d.(Delta.removed)
                                          d.(Delta.updated), rs)).
    { unfold find_added_updated, is_updated, is_reserved.
      destruct (getExtension env (id ext)); auto. now destruct (_ =? _). }
    assert (Hx : is_reserved env ext = true -> is_updated env ext = false).
    { unfold is_updated, is_reserved.
      destruct (getExtension env (id ext)); auto. now intros ->. }
    rewrite Hstep, Ha.
    destruct (is_reserved env ext) eqn:R.
    + rewrite (Hx eq_refl). simpl. rewrite IH. simpl. unfold push.
      now rewrite <- app_assoc.
    + destruct (is_updated env ext); simpl; rewrite IH; simpl; unfold push;
        rewrite <- ?app_assoc; reflexivity.
Qed.

Lemma second_loop (rs : list string) (locals : list IExtension) :
  forall d,
    fold_left (find_removed rs) locals d
    = Delta.mk d.(Delta.added)
               (d.(Delta.removed)
                ++ filter (fun e => negb (existsb (String.eqb e.(id)) rs)) locals)
               d.(Delta.updated).
Proof.
  induction locals as [|ext rest IH]; simpl; intros d.
  - rewrite app_nil_r. now destruct d.
  - rewrite IH. unfold find_removed. rewrite indexOf_absent.
    destruct (existsb _ rs); simpl; auto.
    unfold push. now rewrite <- app_assoc.
Qed.

(** The delta in closed form. *)
Lemma different_extensions_closed (desired : list IExtension) :
  different_extensions env (Some desired)
  = Delta.mk (filter (is_added env) desired)
             (filter (fun e => negb (existsb (String.eqb e.(id))
                                             (reserved_ids env desired)))
                     (getAll env false))
             (filter (is_updated env) desired).
Proof.
  unfold different_extensions. rewrite first_loop. simpl.
  now rewrite second_loop.
Qed.

Lemma getAll_registered (e : IExtension) :
  In e (getAll env false) -> exists l, getExtension env e.(id) = Some l.
Proof.
  rewrite getAll_filter, in_map_iff. intros (ext & <- & Hin).
  apply filter_In in Hin. destruct Hin as [Hin _].
  unfold getExtension.
  destruct (find (fun e0 => vscode.id e0 =? id (getAll_item ext)) (all env)) eqn:F.
  - eauto.
  - exfalso. apply (find_none _ _ F) in Hin.
    unfold vscode.id, getAll_item in Hin. simpl in Hin.
    now rewrite String.eqb_refl in Hin.
Qed.

Lemma in_reserved_ids (desired : list IExtension) (x : string) :
  existsb (String.eqb x) (reserved_ids env desired) = true
  <-> exists e', In e' desired /\ e'.(id) = x /\ reserved env e'.
Proof.
  unfold reserved_ids, reserved, is_reserved. rewrite existsb_exists. split.
  - intros (y & Hy & Hxy). apply String.eqb_eq in Hxy. subst y.
    apply in_map_iff in Hy. destruct Hy as (e' & He' & Hin).
    apply filter_In in Hin. destruct Hin as [Hin Hr].
    exists e'. repeat split; auto.
    destruct (getExtension env (id e')) as [l|]; [|discriminate].
    exists l. split; auto. now apply String.eqb_eq.
  - intros (e' & Hin & <- & l & Hl & Hv).
    exists (id e'). split; [|apply String.eqb_refl].
    apply in_map. apply filter_In. split; auto.
    rewrite Hl. now apply String.eqb_eq.
Qed.

End Differ.

(* ================================================================= *)
(** ** What the differ guarantees *)

(** C1 (as amended). For every registry and desired list, with
    [d = _getDifferentExtensions(desired)]: [added] holds exactly the desired
    records whose id the registry does not know; [updated] exactly the desired
    records whose id is registered with a different version string; [removed]
    exactly the installed records ([getAll()]) whose id was not reserved by a
    desired record of identical version; every desired record falls in
    exactly one of added, updated and reserved; an added id occurs neither in
    [updated] nor in [removed]; and an id occurs in [updated] and in [removed]
    at once exactly when a desired record has it at a version other than the
    registered one, an installed record of [getAll()] has it, and no desired
    record has it at the registered version. *)
Theorem differ_classification (env : Env) (desired : list IExtension) :
  let d := different_extensions env (Some desired) in
  (forall e, In e d.(Delta.added)
             <-> In e desired /\ getExtension env e.(id) = None)
  /\ (forall e, In e d.(Delta.updated)
                <-> In e desired
                    /\ exists l, getExtension env e.(id) = Some l
                                 /\ l.(vscode.packageJSON).(vscode.version) <> e.(version))
  /\ (forall e, In e d.(Delta.removed)
                <-> In e (getAll env false)
                    /\ ~ exists e', In e' desired /\ e'.(id) = e.(id) /\ reserved env e')
  /\ (forall e, In e desired ->
        (In e d.(Delta.added) /\ ~ In e d.(Delta.updated) /\ ~ reserved env e)
        \/ (~ In e d.(Delta.added) /\ In e d.(Delta.updated) /\ ~ reserved env e)
        \/ (~ In e d.(Delta.added) /\ ~ In e d.(Delta.updated) /\ reserved env e))
  /\ (forall x, In x (ids d.(Delta.added))
                -> ~ In x (ids d.(Delta.updated)) /\ ~ In x (ids d.(Delta.removed)))
  /\ (forall x, In x (ids d.(Delta.updated)) /\ In x (ids d.(Delta.removed))
                <-> (exists e, In e desired /\ e.(id) = x
                               /\ exists l, getExtension env x = Some l
                                            /\ l.(vscode.packageJSON).(vscode.version)
                                               <> e.(version))
                    /\ (exists r, In r (getAll env false) /\ r.(id) = x)
                    /\ ~ exists e', In e' desired /\ e'.(id) = x /\ reserved env e').
Proof.
  intros d. subst d. rewrite different_extensions_closed. cbn [Delta.added Delta.updated Delta.removed].
  assert (A : forall e, In e (filter (is_added env) desired)
                        <-> In e desired /\ getExtension env (id e) = None).
  { intros e. rewrite filter_In. unfold is_added.
    destruct (getExtension env (id e)); split; intros [H1 H2]; split; auto; discriminate. }
  assert (U : forall e, In e (filter (is_updated env) desired)
                        <-> In e desired
                            /\ exists l, getExtension env (id e) = Some l
                                         /\ vscode.version (vscode.packageJSON l) <> version e).
  { intros e. rewrite filter_In. unfold is_updated.
    destruct (getExtension env (id e)) as [l|].
    - split; intros [H1 H2]; split; auto.
      + exists l. split; auto. apply String.eqb_neq.
        now destruct (_ =? _).
      + destruct H2 as (l' & Hl & Hv). inversion Hl; subst l'.
        apply String.eqb_neq in Hv. now rewrite Hv.
    - split; intros [H1 H2]; split; auto; try discriminate.
      destruct H2 as (l' & Hl & _). discriminate. }
  assert (R : forall e, In e (filter (fun e0 => negb (existsb (String.eqb (id e0))
                                                     (reserved_ids env desired)))
                                     (getAll env false))
                        <-> In e (getAll env false)
                            /\ ~ exists e', In e' desired /\ id e' = id e /\ reserved env e').
  { intros e. rewrite filter_In.
    pose proof (in_reserved_ids env desired (id e)) as I.
    destruct (existsb (String.eqb (id e)) (reserved_ids env desired)); simpl.
    - split; intros [H1 H2]; [discriminate|]. exfalso. apply H2. now apply I.
    - split; intros [H1 H2]; split; auto.
      intros H. apply I in H. discriminate. }
  split; [exact A|]. split; [exact U|]. split; [exact R|]. split; [|split].
  - intros e He. rewrite A, U. unfold reserved.
    destruct (getExtension env (id e)) as [l|] eqn:G.
    + destruct (String.eqb_spec (vscode.version (vscode.packageJSON l)) (version e)) as [V|V].
      * right; right. split; [intros [_ H]; discriminate|]. split; [|eauto].
        intros [_ (l' & Hl & Hv)]. inversion Hl; subst l'. contradiction.
      * right; left. split; [intros [_ H]; discriminate|]. split; [eauto|].
        intros (l' & Hl & Hv). inversion Hl; subst l'. contradiction.
    + left. split; auto. split.
      * intros [_ (l' & Hl & _)]. discriminate.
      * intros (l' & Hl & _). discriminate.
  - intros x Hx. unfold ids in *. apply in_map_iff in Hx.
    destruct Hx as (e & <- & He). apply A in He. destruct He as [_ G].
    split; intros H; apply in_map_iff in H; destruct H as (e' & Hid & He').
    + apply U in He'. destruct He' as [_ (l & Hl & _)]. rewrite Hid in Hl. congruence.
    + apply R in He'. destruct He' as [He' _].
      apply getAll_registered in He'. destruct He' as [l Hl].
      rewrite Hid in Hl. congruence.
  - intros x. unfold ids. rewrite !in_map_iff. split.
    + intros [(e & <- & He) (r & Hr & Hin)].
      apply U in He. destruct He as [He (l & Hl & Hv)].
      apply R in Hin. destruct Hin as [Hin Hn]. rewrite Hr in Hn.
      split; [exists e; eauto|]. split; [exists r; auto|exact Hn].
    + intros [(e & He & <- & l & Hl & Hv) [(r & Hin & Hr) Hn]]. split.
      * exists e. split; auto. apply U. eauto.
      * exists r. split; auto. apply R. split; auto. now rewrite Hr.
Qed.

(** C1 as the spec words it fails: with [a.x] installed at 1.0 and desired at
    2.0, the id [a.x] is in [updated] and in [removed] at once, and [removed]
    holds an id that the desired list contains. *)
Lemma differ_classification_counterexample :
  let env := Sim.env_of [Sim.installed "a" "x" "1.0"] in
  let desired := [Sim.record "a" "x" "2.0" None; Sim.record "b" "y" "1.0" None] in
  let d := different_extensions env (Some desired) in
  ~ (forall x, In x (ids d.(Delta.updated)) -> ~ In x (ids d.(Delta.removed)))
  /\ ~ (forall x, In x (ids d.(Delta.removed)) -> ~ In x (ids desired)).
Proof.
  cbv zeta. split; intros H; apply (H "a.x"); vm_compute; auto.
Qed.

(** C2 (as amended). With [a.x] installed at 1.0 and the desired list
    [a.x] at 2.0, [b.y] at 1.0, the differ returns added = [b.y], updated =
    [a.x at 2.0], removed = [a.x at 1.0] (the installed record, which no
    desired record reserves) and total = 3. *)
Theorem differ_scenario :
  let env := Sim.env_of [Sim.installed "a" "x" "1.0"] in
  let desired := [Sim.record "a" "x" "2.0" None; Sim.record "b" "y" "1.0" None] in
  let d := different_extensions env (Some desired) in
  d.(Delta.added) = [Sim.record "b" "y" "1.0" None]
  /\ d.(Delta.updated) = [Sim.record "a" "x" "2.0" None]
  /\ d.(Delta.removed) = [Sim.record "a" "x" "1.0" None]
  /\ Delta.total d = 3.
Proof. cbv zeta. repeat split. Qed.

(** C2 as the spec words it fails: [removed] is not empty and the total is
    not 2. *)
Lemma differ_scenario_counterexample :
  let env := Sim.env_of [Sim.installed "a" "x" "1.0"] in
  let desired := [Sim.record "a" "x" "2.0" None; Sim.record "b" "y" "1.0" None] in
  let d := different_extensions env (Some desired) in
  ~ (d.(Delta.added) = [Sim.record "b" "y" "1.0" None]
     /\ d.(Delta.updated) = [Sim.record "a" "x" "2.0" None]
     /\ d.(Delta.removed) = []
     /\ Delta.total d = 2).
Proof. cbv zeta. intros (_ & _ & H & _). vm_compute in H. discriminate. Qed.

(** C4 (as amended). An absent desired list yields the empty delta: added,
    updated and removed are all empty and the total is 0, whatever is
    installed. *)
Theorem differ_absent_list (P : Platform) (env : Env) (w : World P) :
  different_extensions env None = Delta.mk [] [] []
  /\ Delta.total (different_extensions env None) = 0
  /\ _getDifferentExtensions env None w = (Fulfilled (Delta.mk [] [] []), w).
Proof. repeat split. Qed.

(** C4 as the spec words it fails: with one extension installed, the absent
    list does not give the delta of the empty list, whose [removed] is the
    installed extension. *)
Lemma differ_absent_list_counterexample :
  let env := Sim.env_of [Sim.installed "a" "x" "1.0"] in
  ~ (different_extensions env None = different_extensions env (Some [])
     /\ (different_extensions env None).(Delta.removed) = getAll env false).
Proof. cbv zeta. intros [H _]. vm_compute in H. discriminate. Qed.

(** C5 (as amended). With an empty desired list, [removed] is the whole
    installed list ([getAll()]) and [added] and [updated] are empty. With an
    empty installed list, [removed] is empty; [added] is the whole desired
    list exactly when the registry knows none of the desired ids, builtin
    extensions included, and then [updated] is empty and [removed] is the
    whole of [getAll()]; this is so in particular when the registry is
    empty. *)
Theorem differ_empty_sides :
  (forall env, different_extensions env (Some []) = Delta.mk [] (getAll env false) [])
  /\ (forall env desired,
        getAll env false = [] ->
        (different_extensions env (Some desired)).(Delta.removed) = [])
  /\ (forall env desired,
        (different_extensions env (Some desired)).(Delta.added) = desired
        <-> (forall e, In e desired -> getExtension env e.(id) = None))
  /\ (forall env desired,
        (forall e, In e desired -> getExtension env e.(id) = None) ->
        different_extensions env (Some desired) = Delta.mk desired (getAll env false) [])
  /\ (forall desired extensionsPath proxy,
        different_extensions (mkEnv [] extensionsPath proxy) (Some desired)
        = Delta.mk desired [] []).
Proof.
  assert (K : forall env desired,
             (forall e, In e desired -> getExtension env e.(id) = None) ->
             different_extensions env (Some desired)
             = Delta.mk desired (getAll env false) []).
  { intros env desired H. rewrite different_extensions_closed.
    assert (F : filter (is_added env) desired = desired
                /\ filter (is_updated env) desired = []
                /\ filter (is_reserved env) desired = []).
    { induction desired as [|e l IH]; [auto|].
      cbn [filter]. unfold is_added at 1, is_updated at 1, is_reserved at 1.
      rewrite (H e (or_introl eq_refl)).
      destruct IH as (A & U & R); [intros e' He'; apply H; now right|].
      now rewrite A. }
    destruct F as (A & U & R). unfold reserved_ids. rewrite A, U, R. f_equal.
    cbn [map]. induction (getAll env false) as [|e l IH]; simpl; [reflexivity|].
    f_equal. exact IH. }
  split; [|split; [|split; [|split; [exact K|]]]].
  - intros env. rewrite different_extensions_closed. simpl.
    f_equal. induction (getAll env false) as [|e l IH]; simpl; congruence.
  - intros env desired H. rewrite different_extensions_closed.
    cbn [Delta.removed]. now rewrite H.
  - intros env desired. split.
    + rewrite different_extensions_closed. cbn [Delta.added].
      intros H e He. rewrite <- H in He. apply filter_In in He.
      destruct He as [_ He]. unfold is_added in He.
      now destruct (getExtension env (id e)).
    + intros H. now rewrite (K env desired H).
  - intros desired extensionsPath proxy. rewrite K.
    + now rewrite getAll_filter.
    + reflexivity.
Qed.

(** C5 as the spec words it fails: with only the builtin [vscode.git]
    registered the installed list [getAll()] is empty, and for the desired
    list that holds [vscode.git] at another version [added] is not the
    desired list: the record is an update. *)
Lemma differ_empty_sides_counterexample :
  let env := Sim.env_of [Sim.builtin "vscode" "git" "1.0"] in
  let desired := [Sim.record "vscode" "git" "2.0" None] in
  getAll env false = []
  /\ ~ ((different_extensions env (Some desired)).(Delta.added) = desired
        /\ (different_extensions env (Some desired)).(Delta.updated) = []
        /\ (different_extensions env (Some desired)).(Delta.removed) = []).
Proof.
  cbv zeta. split; [reflexivity|].
  intros (H & _). vm_compute in H. discriminate.
Qed.

(* ================================================================= *)
(** ** Runs *)

Section Runs.

Variable P : Platform.
Variable env : Env.

Lemma emits_ret {X : Type} (Q : Event -> Prop) (x : X) : emits Q (ret (P:=P) x).
Proof. intros w. exists []. simpl. now rewrite app_nil_r. Qed.

Lemma emits_bind {X Y : Type} (Q : Event -> Prop) (m : IO P X) (k : X -> IO P Y) :
  emits Q m -> (forall x, emits Q (k x)) -> emits Q (bind m k).
Proof.
  intros Hm Hk w. unfold bind.
  destruct (Hm w) as (n1 & E1 & F1). destruct (m w) as [x w1]. simpl in E1.
  destruct (Hk x w1) as (n2 & E2 & F2).
  exists (n1 ++ n2)%list. rewrite E2, E1, app_assoc. split; auto.
  apply Forall_app; auto.
Qed.

Lemma emits_emit (Q : Event -> Prop) (e : Event) : Q e -> emits Q (emit (P:=P) e).
Proof. intros H w. exists [e]. simpl. split; auto. Qed.

Lemma emits_call {X : Type} (Q : Event -> Prop) (c : Call)
    (op : P.(Machine) -> X * P.(Machine)) :
  Q (Called c) -> emits Q (call c op).
Proof.
  intros H w. exists [Called c]. unfold call.
  destruct (op (machine w)). simpl. split; auto.
Qed.

Lemma emits_weaken {X : Type} (Q Q' : Event -> Prop) (m : IO P X) :
  (forall e, Q e -> Q' e) -> emits Q m -> emits Q' m.
Proof.
  intros H Hm w. destruct (Hm w) as (new & E & F). exists new. split; auto.
  eapply Forall_impl; eauto.
Qed.

Lemma settles_ret {A : Type} (s : Settled A) : s <> Pending -> settles (ret (P:=P) s).
Proof. intros H w. exact H. Qed.

Lemma settles_bind {X A : Type} (m : IO P X) (k : X -> Promise P A) :
  (forall x, settles (k x)) -> settles (bind m k).
Proof. intros Hk w. unfold bind. destruct (m w) as [x w1]. apply Hk. Qed.

Lemma settles_then {A B : Type} (p : Promise P A) (f : A -> Promise P B) :
  settles p -> (forall a, settles (f a)) -> settles (then_ p f).
Proof.
  intros Hp Hf w. unfold then_, bind. specialize (Hp w).
  destruct (p w) as [[a|r|] w1]; simpl in *; [apply Hf|discriminate|congruence].
Qed.

Lemma settles_catch {A : Type} (p : Promise P A) (h : Reason -> Promise P A) :
  settles p -> (forall r, settles (h r)) -> settles (catch p h).
Proof.
  intros Hp Hh w. unfold catch, bind. specialize (Hp w).
  destruct (p w) as [[a|r|] w1]; simpl in *; [discriminate|apply Hh|congruence].
Qed.

Lemma settles_fs_promise {A : Type} (c : Call)
    (op : P.(Machine) -> (string + A) * P.(Machine)) :
  settles (fs_promise c op).
Proof.
  intros w. unfold fs_promise, bind, call.
  destruct (op (machine w)) as [[message|value] m]; simpl; discriminate.
Qed.

(** One step of the analysis of a stage: its code is made of [bind], [ret],
    [emit], [call], the promise combinators and case distinctions. *)
Ltac emits_step :=
  cbv zeta;
  first
    [ apply emits_ret
    | apply emits_emit; simpl; solve [auto]
    | apply emits_call; simpl; solve [auto]
    | apply emits_bind; [|intros ?]
    | match goal with
      | |- emits _ (match ?x with _ => _ end) => destruct x
      end ].

Ltac settles_step :=
  cbv zeta;
  first
    [ apply settles_then; [|intros ?]
    | apply settles_catch; [|intros ?]
    | apply settles_fs_promise
    | apply settles_ret; discriminate
    | match goal with
      | |- settles (bind _ _) => apply settles_bind; intros ?
      | |- settles (match ?x with _ => _ end) => destruct x
      end ].

Ltac stage :=
  lazymatch goal with
  | |- emits _ _ =>
      unfold then_, catch, fs_promise, resolve, reject, when, showSpinner, clearSpinner;
      repeat emits_step
  | |- settles _ =>
      unfold resolve, reject, when, showSpinner, clearSpinner;
      repeat settles_step
  end.

Lemma downloadExtension_emits (item : IExtension) :
  emits only_calls (downloadExtension (P:=P) env item).
Proof. unfold downloadExtension. stage. Qed.

Lemma downloadExtension_settles (item : IExtension) :
  settles (downloadExtension (P:=P) env item).
Proof. unfold downloadExtension. stage. Qed.

Lemma extractExtension_emits (item : IExtension) :
  emits only_calls (extractExtension (P:=P) env item).
Proof. unfold extractExtension. stage. Qed.

Lemma extractExtension_settles (item : IExtension) :
  settles (extractExtension (P:=P) env item).
Proof. unfold extractExtension. stage. Qed.

Lemma updateMetadata_emits (extension : option IExtension) :
  emits only_calls (updateMetadata (P:=P) extension).
Proof. unfold updateMetadata, rewrite_manifest. stage. Qed.

Lemma updateMetadata_settles (extension : option IExtension) :
  settles (updateMetadata (P:=P) extension).
Proof. unfold updateMetadata, rewrite_manifest. stage. Qed.

Lemma uninstallExtension_emits (item : IExtension) :
  emits only_calls (uninstallExtension (P:=P) env item).
Proof. unfold uninstallExtension. stage. Qed.

Lemma uninstallExtension_settles (item : IExtension) :
  settles (uninstallExtension (P:=P) env item).
Proof. unfold uninstallExtension. stage. Qed.

Lemma calls_quiet (s t : nat) (e : Event) : only_calls e -> quiet s t e.
Proof. destruct e; simpl; tauto. Qed.

Ltac pipeline_step s t :=
  first
    [ apply (emits_weaken _ _ _ (calls_quiet s t) (downloadExtension_emits _))
    | apply (emits_weaken _ _ _ (calls_quiet s t) (extractExtension_emits _))
    | apply (emits_weaken _ _ _ (calls_quiet s t) (updateMetadata_emits _))
    | apply (emits_weaken _ _ _ (calls_quiet s t) (uninstallExtension_emits _))
    | apply downloadExtension_settles
    | apply extractExtension_settles
    | apply updateMetadata_settles
    | apply uninstallExtension_settles
    | emits_step
    | settles_step ].

Lemma batch_pipeline_emits (b : Batch) (showIndicator : bool) (s t : nat)
    (item : IExtension) :
  emits (quiet s t) (batch_pipeline (P:=P) env b showIndicator s t item).
Proof.
  destruct b; unfold batch_pipeline, add_pipeline, add_install, update_pipeline,
    update_install, then_, resolve, reject, when, showSpinner;
    repeat pipeline_step s t.
Qed.

Lemma batch_pipeline_settles (b : Batch) (showIndicator : bool) (s t : nat)
    (item : IExtension) :
  settles (batch_pipeline (P:=P) env b showIndicator s t item).
Proof.
  destruct b; unfold batch_pipeline, add_pipeline, add_install, update_pipeline,
    update_install, resolve, when, showSpinner;
    repeat pipeline_step s t.
Qed.

Lemma attempt_events (b : Batch) (showIndicator : bool) (label : string)
    (s t : nat) (item : IExtension) (w : World P) :
  events (snd (attempt b showIndicator label s t item w))
  = (events w
     ++ Attempt b item
        :: (if showIndicator then [ShowSpinner (label ++ id item) s t] else []))%list.
Proof.
  unfold attempt, bind, emit, when, showSpinner, ret, push.
  destruct showIndicator; simpl; unfold push; rewrite <- ?app_assoc; reflexivity.
Qed.

(** What a run of the shared loop yields and leaves behind. *)
Lemma series_run (b : Batch) (showIndicator : bool) (t : nat) (items : list IExtension) :
  forall s acc (w : World P),
  exists succ errs w' new,
    series env b showIndicator t items s acc w
    = (Some ((fst acc ++ succ)%list, (snd acc ++ errs)%list), w')
    /\ events w' = (events w ++ new)%list
    /\ batch_shape b showIndicator t s items new
    /\ Permutation (succ ++ errs) items.
Proof.
  induction items as [|item rest IH]; intros s acc w.
  - exists [], [], w, []. simpl. rewrite !app_nil_r. destruct acc.
    repeat split; auto. constructor.
  - cbn [series].
    pose proof (attempt_events b showIndicator (batch_label b) (S s) t item w) as Ea.
    set (w1 := snd (attempt b showIndicator (batch_label b) (S s) t item w)) in *.
    destruct (batch_pipeline_emits b showIndicator (S s) t item w1) as (body & Eb & Fb).
    pose proof (batch_pipeline_settles b showIndicator (S s) t item w1) as Hs.
    destruct (batch_pipeline env b showIndicator (S s) t item w1) as [[v|r|] w2];
      simpl in Eb, Hs; [| |congruence].
    + destruct (IH (S s) (push (fst acc) item, snd acc)
                   (snd (emit (Done b item true) w2)))
        as (succ & errs & w' & new & E & Ev & Sh & Pm).
      exists (item :: succ), errs, w'.
      exists (Attempt b item
              :: ((if showIndicator
                   then [ShowSpinner (batch_label b ++ id item) (S s) t] else [])
                  ++ body) ++ Done b item true :: new)%list.
      rewrite E, Ev. simpl. unfold push. rewrite Eb, Ea.
      repeat split.
      * now rewrite <- app_assoc.
      * repeat (rewrite <- app_assoc; simpl). reflexivity.
      * constructor; auto.
        -- apply Forall_app. split; auto. destruct showIndicator; repeat constructor.
        -- intros ->. simpl. eauto.
      * simpl. now constructor.
    + destruct (IH (S s) (fst acc, push (snd acc) item)
                   (snd (emit (Done b item false) w2)))
        as (succ & errs & w' & new & E & Ev & Sh & Pm).
      exists succ, (item :: errs), w'.
      exists (Attempt b item
              :: ((if showIndicator
                   then [ShowSpinner (batch_label b ++ id item) (S s) t] else [])
                  ++ body) ++ Done b item false :: new)%list.
      rewrite E, Ev. simpl. unfold push. rewrite Eb, Ea.
      repeat split.
      * now rewrite <- app_assoc.
      * repeat (rewrite <- app_assoc; simpl). reflexivity.
      * constructor; auto.
        -- apply Forall_app. split; auto. destruct showIndicator; repeat constructor.
        -- intros ->. simpl. eauto.
      * apply Permutation_sym. apply Permutation_cons_app.
        now apply Permutation_sym.
Qed.



Lemma add_eachSeries (showIndicator : bool) (t : nat) (items : list IExtension) :
  forall s a e (w : World P),
    eachSeries items (add_iteratee env showIndicator t) (s, Added.mk a e) w
    = match series env AddBatch showIndicator t items s (a, e) w with
      | (Some (a', e'), w') => (Some (s + List.length items, Added.mk a' e'), w')
      | (None, w') => (None, w')
      end.
Proof.
  induction items as [|item rest IH]; intros s a e w.
  - simpl. now rewrite Nat.add_0_r.
  - cbn [eachSeries series batch_pipeline batch_label]. unfold bind at 1.
    unfold add_iteratee, catch, then_, bind.
    destruct (attempt AddBatch showIndicator "Syncing: Downloading extension: "
                      (S s) t item w) as [u w1]. cbn [snd].
    destruct (add_pipeline env showIndicator (S s) t item w1) as [[v|r|] w2];
      simpl; auto; rewrite IH; simpl; rewrite Nat.add_succ_r; reflexivity.
Qed.

Lemma update_eachSeries (showIndicator : bool) (t : nat) (items : list IExtension) :
  forall s a e (w : World P),
    eachSeries items (update_iteratee env showIndicator t) (s, Updated.mk a e) w
    = match series env UpdateBatch showIndicator t items s (a, e) w with
      | (Some (a', e'), w') => (Some (s + List.length items, Updated.mk a' e'), w')
      | (None, w') => (None, w')
      end.
Proof.
  induction items as [|item rest IH]; intros s a e w.
  - simpl. now rewrite Nat.add_0_r.
  - cbn [eachSeries series batch_pipeline batch_label]. unfold bind at 1.
    unfold update_iteratee, catch, then_, bind.
    destruct (attempt UpdateBatch showIndicator "Syncing: Downloading extension: "
                      (S s) t item w) as [u w1]. cbn [snd].
    destruct (update_pipeline env showIndicator (S s) t item w1) as [[v|r|] w2];
      simpl; auto; rewrite IH; simpl; rewrite Nat.add_succ_r; reflexivity.
Qed.

Lemma remove_eachSeries (showIndicator : bool) (t : nat) (items : list IExtension) :
  forall s a e (w : World P),
    eachSeries items (remove_iteratee env showIndicator t) (s, Removed.mk a e) w
    = match series env RemoveBatch showIndicator t items s (a, e) w with
      | (Some (a', e'), w') => (Some (s + List.length items, Removed.mk a' e'), w')
      | (None, w') => (None, w')
      end.
Proof.
  induction items as [|item rest IH]; intros s a e w.
  - simpl. now rewrite Nat.add_0_r.
  - cbn [eachSeries series batch_pipeline batch_label]. unfold bind at 1.
    unfold remove_iteratee, catch, then_, bind.
    destruct (attempt RemoveBatch showIndicator "Syncing: Uninstalling extension: "
                      (S s) t item w) as [u w1]. cbn [snd].
    destruct (uninstallExtension env item w1) as [[v|r|] w2];
      simpl; auto; rewrite IH; simpl; rewrite Nat.add_succ_r; reflexivity.
Qed.

(** Each runner is the shared loop, started at [progress] with two empty
    lists. *)
Lemma run_batch_series (b : Batch) (options : ISyncOptions) (w : World P) :
  run_batch env b options w
  = series env b (showIndicator_or_false options) options.(total)
           options.(extensions) options.(progress) ([], []) w.
Proof.
  destruct b; unfold run_batch, _addExtensions, _updateExtensions, _removeExtensions, bind.
  - rewrite add_eachSeries.
    destruct (series _ _ _ _ _ _ _ _) as [[[a e]|] w']; reflexivity.
  - rewrite update_eachSeries.
    destruct (series _ _ _ _ _ _ _ _) as [[[a e]|] w']; reflexivity.
  - rewrite remove_eachSeries.
    destruct (series _ _ _ _ _ _ _ _) as [[[a e]|] w']; reflexivity.
Qed.

Lemma _addExtensions_series (options : ISyncOptions) (w : World P) :
  _addExtensions env options w
  = match run_batch env AddBatch options w with
    | (Some (a, e), w') => (Fulfilled (Added.mk a e), w')
    | (None, w') => (Pending, w')
    end.
Proof.
  rewrite run_batch_series. unfold _addExtensions, bind. rewrite add_eachSeries.
  destruct (series _ _ _ _ _ _ _ _) as [[[a e]|] w']; reflexivity.
Qed.

Lemma _updateExtensions_series (options : ISyncOptions) (w : World P) :
  _updateExtensions env options w
  = match run_batch env UpdateBatch options w with
    | (Some (a, e), w') => (Fulfilled (Updated.mk a e), w')
    | (None, w') => (Pending, w')
    end.
Proof.
  rewrite run_batch_series. unfold _updateExtensions, bind. rewrite update_eachSeries.
  destruct (series _ _ _ _ _ _ _ _) as [[[a e]|] w']; reflexivity.
Qed.

Lemma _removeExtensions_series (options : ISyncOptions) (w : World P) :
  _removeExtensions env options w
  = match run_batch env RemoveBatch options w with
    | (Some (a, e), w') => (Fulfilled (Removed.mk a e), w')
    | (None, w') => (Pending, w')
    end.
Proof.
  rewrite run_batch_series. unfold _removeExtensions, bind. rewrite remove_eachSeries.
  destruct (series _ _ _ _ _ _ _ _) as [[[a e]|] w']; reflexivity.
Qed.

(** A batch runner always delivers its two lists: they hold the records of
    the batch, each once, and the events have the shape of a batch. *)
Lemma run_batch_delivers (b : Batch) (options : ISyncOptions) (w : World P) :
  exists succ errs w' new,
    run_batch env b options w = (Some (succ, errs), w')
    /\ events w' = (events w ++ new)%list
    /\ batch_shape b (showIndicator_or_false options) options.(total)
                   options.(progress) options.(extensions) new
    /\ Permutation (succ ++ errs) options.(extensions).
Proof.
  rewrite run_batch_series.
  destruct (series_run b (showIndicator_or_false options) options.(total)
                       options.(extensions) options.(progress) ([], []) w)
    as (succ & errs & w' & new & E & Ev & Sh & Pm).
  exists succ, errs, w', new. auto.
Qed.

(** One pass: the three runners one after the other, each from the world
    the one before left, then the indicator is cleared and the marker file
    removed; the report has the six lists whatever the removal answers. *)
Lemma sync_run (extensions : option (list IExtension)) (showIndicator : bool)
    (w : World P) :
  let d := different_extensions env extensions in
  exists a ae wa u ue wu r re wr,
    run_batch env AddBatch (add_options d showIndicator) w = (Some (a, ae), wa)
    /\ run_batch env UpdateBatch (update_options d showIndicator) wa = (Some (u, ue), wu)
    /\ run_batch env RemoveBatch (remove_options d showIndicator) wu = (Some (r, re), wr)
    /\ sync env extensions showIndicator w
       = (Fulfilled
            {| extension :=
                 Some (Status.mk (Some a) (Some ae) (Some u) (Some ue) (Some r) (Some re)) |},
          mkWorld P
            (snd (P.(fs_remove) (obsolete_file P env) (machine wr)))
            (events wr ++ (if showIndicator then [ClearSpinner ""] else [])
             ++ [Called (CallRemove (obsolete_file P env))])%list).
Proof.
  intros d.
  destruct (run_batch_delivers AddBatch (add_options d showIndicator) w)
    as (a & ae & wa & newA & Ea & _).
  destruct (run_batch_delivers UpdateBatch (update_options d showIndicator) wa)
    as (u & ue & wu & newU & Eu & _).
  destruct (run_batch_delivers RemoveBatch (remove_options d showIndicator) wu)
    as (r & re & wr & newR & Er & _).
  exists a, ae, wa, u, ue, wu, r, re, wr.
  repeat split; auto.
  unfold sync, resolves_only, _getDifferentExtensions, sync_tasks.
  cbn [eachSeries].
  unfold sync_iteratee, catch, then_, fs_promise, resolve, bind, ret.
  fold d.
  rewrite _addExtensions_series, Ea.
  rewrite _updateExtensions_series, Eu.
  rewrite _removeExtensions_series, Er.
  cbn [Status.assign Status.of_added Status.of_updated Status.of_removed
       Status.assign_key Status.empty Status.added Status.addedErrors
       Status.updated Status.updatedErrors Status.removed Status.removedErrors
       Added.added Added.addedErrors Updated.updated Updated.updatedErrors
       Removed.removed Removed.removedErrors].
  unfold when, clearSpinner, emit, call, ret, push.
  destruct showIndicator; cbn [machine events];
    destruct (fs_remove P (obsolete_file P env) (machine wr)) as [[err|[]] m'];
    cbn [snd]; rewrite <- ?app_assoc; reflexivity.
Qed.

End Runs.

(* ================================================================= *)
(** ** Reading the observations *)

Lemma marks_app (l1 l2 : list Event) : marks (l1 ++ l2) = (marks l1 ++ marks l2)%list.
Proof.
  induction l1 as [|e l IH]; simpl; auto.
  destruct e; simpl; congruence.
Qed.

Lemma attempts_app (l1 l2 : list Event) : attempts (l1 ++ l2) = attempts l1 + attempts l2.
Proof.
  induction l1 as [|e l IH]; simpl; auto.
  destruct e; simpl; congruence.
Qed.

Lemma reported_app (l1 l2 : list Event) :
  reported (l1 ++ l2) = (reported l1 ++ reported l2)%list.
Proof.
  induction l1 as [|e l IH]; simpl; auto.
  destruct e; simpl; congruence.
Qed.

Lemma steps_track_app (t : nat) (l1 l2 : list Event) :
  forall n,
    steps_track n t (l1 ++ l2)
    <-> steps_track n t l1 /\ steps_track (n + attempts l1) t l2.
Proof.
  induction l1 as [|e l IH]; intros n; simpl.
  - rewrite Nat.add_0_r. tauto.
  - destruct e; simpl; rewrite ?IH, ?Nat.add_succ_r; simpl; tauto.
Qed.

Lemma quiet_body (s t : nat) (body : list Event) :
  Forall (quiet s t) body ->
  marks body = [] /\ attempts body = 0 /\ steps_track s t body
  /\ Forall (eq s) (reported body).
Proof.
  induction 1 as [|e l He Hl IH]; simpl; auto.
  destruct IH as (M & A & T & R).
  destruct e; simpl in *; try contradiction; auto.
  destruct He as [-> ->]. repeat split; auto.
Qed.

Lemma sorted_app (l1 l2 : list nat) (m : nat) :
  StronglySorted le l1 -> StronglySorted le l2 ->
  Forall (fun x => x <= m) l1 -> Forall (fun x => m <= x) l2 ->
  StronglySorted le (l1 ++ l2).
Proof.
  intros S1 S2 B1 B2. induction S1 as [|x l Sl IH Hx]; simpl; auto.
  inversion B1; subst. constructor; auto.
  apply Forall_app. split; auto.
  eapply Forall_impl; [|exact B2]. simpl. intros y. lia.
Qed.

Lemma constant_sorted (c : nat) (l : list nat) :
  Forall (eq c) l -> StronglySorted le l.
Proof.
  induction 1 as [|x l <- Hl IH]; constructor; auto.
  eapply Forall_impl; [|exact Hl]. simpl. intros y <-. lia.
Qed.

Section Shape.

Variables (b : Batch) (showIndicator : bool) (t : nat).


Lemma shape_attempts (s : nat) (items : list IExtension) (new : list Event) :
  batch_shape b showIndicator t s items new -> attempts new = List.length items.
Proof.
  induction 1 as [|s item rest body ok evs Hq _ _ IH]; simpl; auto.
  rewrite attempts_app. destruct (quiet_body _ _ _ Hq) as (_ & -> & _). simpl.
  now rewrite IH.
Qed.

Lemma shape_track (s : nat) (items : list IExtension) (new : list Event) :
  batch_shape b showIndicator t s items new -> steps_track s t new.
Proof.
  induction 1 as [|s item rest body ok evs Hq _ _ IH]; simpl; auto.
  apply steps_track_app. destruct (quiet_body _ _ _ Hq) as (_ & -> & T & _).
  rewrite Nat.add_0_r. split; auto.
Qed.

(** The steps a batch reports lie above its starting value and within its
    number of records, and never decrease. *)
Lemma shape_reported (s : nat) (items : list IExtension) (new : list Event) :
  batch_shape b showIndicator t s items new ->
  Forall (fun x => s < x <= s + List.length items) (reported new)
  /\ StronglySorted le (reported new).
Proof.
  induction 1 as [|s item rest body ok evs Hq _ _ [IHb IHs]]; simpl.
  - split; constructor.
  - rewrite reported_app. simpl.
    destruct (quiet_body _ _ _ Hq) as (_ & _ & _ & R).
    assert (B : Forall (fun x => S s < x <= s + S (List.length rest)) (reported evs)).
    { eapply Forall_impl; [|exact IHb]. simpl. intros x. lia. }
    split.
    + apply Forall_app. split.
      * eapply Forall_impl; [|exact R]. simpl. intros x <-. lia.
      * eapply Forall_impl; [|exact B]. simpl. intros x. lia.
    + apply (sorted_app _ _ (S s)); auto.
      * now apply (constant_sorted (S s)).
      * eapply Forall_impl; [|exact R]. simpl. intros x <-. lia.
      * eapply Forall_impl; [|exact B]. simpl. intros x. lia.
Qed.

End Shape.


(* ================================================================= *)
(** ** What the batch runners guarantee *)


(** C3 (as amended). When the download and the installation of a record
    succeed and [updateMetadata] then rejects, the iteratee of
    [_addExtensions] appends the record to [addedErrors] and leaves [added]
    as it was; the iteratee of [_updateExtensions] does the same with
    [updatedErrors] and [updated]. *)
Theorem metadata_failure_is_an_error (P : Platform) (env : Env) :
  (forall showIndicator total item steps result (w : World P) installed w2 reason w3,
      add_install env showIndicator (S steps) total item
        (snd (attempt AddBatch showIndicator "Syncing: Downloading extension: "
                      (S steps) total item w))
      = (Fulfilled installed, w2) ->
      updateMetadata (Some installed) w2 = (Rejected reason, w3) ->
      add_iteratee env showIndicator total item (steps, result) w
      = (Some (S steps,
               Added.mk result.(Added.added) (push result.(Added.addedErrors) item)),
         snd (emit (Done AddBatch item false) w3)))
  /\ (forall showIndicator total item steps result (w : World P) installed w2 reason w3,
        update_install env showIndicator (S steps) total item
          (snd (attempt UpdateBatch showIndicator "Syncing: Downloading extension: "
                        (S steps) total item w))
        = (Fulfilled installed, w2) ->
        updateMetadata (Some installed) w2 = (Rejected reason, w3) ->
        update_iteratee env showIndicator total item (steps, result) w
        = (Some (S steps,
                 Updated.mk result.(Updated.updated)
                            (push result.(Updated.updatedErrors) item)),
           snd (emit (Done UpdateBatch item false) w3))).
Proof.
  split; intros showIndicator total item steps result w installed w2 reason w3 Hi Hm.
  - unfold add_iteratee, add_pipeline.
    unfold catch at 1. unfold then_ at 1 2. unfold bind.
    destruct (attempt AddBatch showIndicator _ (S steps) total item w) as [u w1].
    simpl in Hi. rewrite Hi, Hm. reflexivity.
  - unfold update_iteratee, update_pipeline.
    unfold catch at 1. unfold then_ at 1 2. unfold bind.
    destruct (attempt UpdateBatch showIndicator _ (S steps) total item w) as [u w1].
    simpl in Hi. rewrite Hi, Hm. reflexivity.
Qed.

(** C10. [updateMetadata] resolves and leaves the world as it is (no library
    call, nothing written) when the record is absent, has no metadata or has
    no install path; whenever it changes anything, both [__metadata] and
    [path] are present; and with both present and non-empty it is the
    rewrite of the manifest, which starts by reading [package.json] under the
    install path. *)
Theorem updateMetadata_noop (P : Platform) :
  (forall w : World P, updateMetadata None w = (Fulfilled tt, w))
  /\ (forall e (w : World P),
        e.(__metadata) = None \/ e.(path) = None ->
        updateMetadata (Some e) w = (Fulfilled tt, w))
  /\ (forall e (w : World P),
        snd (updateMetadata (Some e) w) <> w ->
        exists metadata extPath,
          e.(__metadata) = Some metadata /\ e.(path) = Some extPath)
  /\ (forall e metadata extPath (w : World P),
        e.(__metadata) = Some metadata -> e.(path) = Some extPath ->
        metadata <> "" -> extPath <> "" ->
        updateMetadata (Some e) w = rewrite_manifest e metadata extPath w
        /\ exists rest,
             events (snd (updateMetadata (Some e) w))
             = (events w
                ++ Called (CallReadJson (P.(path_join) extPath "package.json"))
                   :: rest)%list).
Proof.
  split; [reflexivity|]. split; [|split].
  - intros e w [H|H]; unfold updateMetadata; rewrite H; [|destruct (__metadata e)];
      reflexivity.
  - intros e w H. unfold updateMetadata in H.
    destruct (__metadata e) as [metadata|]; [|now elim H].
    destruct (path e) as [extPath|]; [|now elim H]. eauto.
  - intros e metadata extPath w Hm Hp Nm Np.
    assert (E : updateMetadata (Some e) w = rewrite_manifest e metadata extPath w).
    { unfold updateMetadata. rewrite Hm, Hp.
      apply String.eqb_neq in Nm, Np. now rewrite Nm, Np. }
    split; auto. rewrite E.
    unfold rewrite_manifest, catch, then_, fs_promise, bind, call, reject, resolve, ret.
    destruct (fs_readJson P (path_join P extPath "package.json") (machine w))
      as [[err|packageJSON] m]; cbn [machine events snd].
    + exists []. reflexivity.
    + destruct (fs_writeJson P _ _ m) as [[err|[]] m']; cbn [snd events]; unfold push;
        rewrite <- app_assoc; eexists; reflexivity.
Qed.

(* ================================================================= *)
(** ** What one pass guarantees *)

(** The events of one pass: those of the three batches, each of the shape of
    a batch starting at its own offset, then the clearing of the indicator
    and the removal of the marker file. *)
Lemma sync_trace (P : Platform) (env : Env) (extensions : option (list IExtension))
    (showIndicator : bool) (w : World P) :
  let d := different_extensions env extensions in
  let t := Delta.total d in
  exists newA newU newR,
    events (snd (sync env extensions showIndicator w))
    = (events w ++ newA ++ newU ++ newR
       ++ (if showIndicator then [ClearSpinner ""] else [])
       ++ [Called (CallRemove (obsolete_file P env))])%list
    /\ batch_shape AddBatch showIndicator t 0 d.(Delta.added) newA
    /\ batch_shape UpdateBatch showIndicator t (List.length d.(Delta.added))
                   d.(Delta.updated) newU
    /\ batch_shape RemoveBatch showIndicator t
                   (List.length d.(Delta.added) + List.length d.(Delta.updated))
                   d.(Delta.removed) newR.
Proof.
  intros d t.
  destruct (sync_run P env extensions showIndicator w)
    as (a & ae & wa & u & ue & wu & r & re & wr & Ea & Eu & Er & Es).
  fold d in Ea, Eu, Er.
  destruct (run_batch_delivers P env AddBatch (add_options d showIndicator) w)
    as (a' & ae' & wa' & newA & Ea' & Eva & Sa & _).
  rewrite Ea in Ea'. inversion Ea'; subst a' ae' wa'. clear Ea'.
  destruct (run_batch_delivers P env UpdateBatch (update_options d showIndicator) wa)
    as (u' & ue' & wu' & newU & Eu' & Evu & Su & _).
  rewrite Eu in Eu'. inversion Eu'; subst u' ue' wu'. clear Eu'.
  destruct (run_batch_delivers P env RemoveBatch (remove_options d showIndicator) wu)
    as (r' & re' & wr' & newR & Er' & Evr & Sr & _).
  rewrite Er in Er'. inversion Er'; subst r' re' wr'. clear Er'.
  exists newA, newU, newR. rewrite Es. cbn [snd events].
  rewrite Evr, Evu, Eva. rewrite <- !app_assoc. auto.
Qed.

(** C7. In a pass with the indicator on, the three batches start their
    counters at 0, at [added.length] and at [added.length + updated.length];
    every record entered is first reported at the next step value; the step
    values reported never decrease; every report carries the number of
    records attempted so far (so the counter moves once per record and not
    per stage) out of [total], and lies between 1 and [total]; and the number
    of records attempted in the pass is [total], so that a report equals
    [total] exactly when all records have been attempted. *)
Theorem progress_reports (P : Platform) (env : Env)
    (extensions : option (list IExtension)) (w : World P) :
  let d := different_extensions env extensions in
  let t := Delta.total d in
  exists newA newU newR,
    events (snd (sync env extensions true w))
    = (events w ++ newA ++ newU ++ newR
       ++ [ClearSpinner ""; Called (CallRemove (obsolete_file P env))])%list
    /\ batch_shape AddBatch true t 0 d.(Delta.added) newA
    /\ batch_shape UpdateBatch true t (List.length d.(Delta.added)) d.(Delta.updated) newU
    /\ batch_shape RemoveBatch true t
                   (List.length d.(Delta.added) + List.length d.(Delta.updated))
                   d.(Delta.removed) newR
    /\ StronglySorted le (reported (newA ++ newU ++ newR))
    /\ attempts (newA ++ newU ++ newR) = t
    /\ (forall pre message s t' post,
          (newA ++ newU ++ newR)%list = (pre ++ ShowSpinner message s t' :: post)%list ->
          s = attempts pre /\ t' = t /\ 1 <= s <= t
          /\ (s = t <-> attempts pre = attempts (newA ++ newU ++ newR))).
Proof.
  intros d t.
  destruct (sync_trace P env extensions true w) as (newA & newU & newR & E & Sa & Su & Sr).
  fold d in E, Sa, Su, Sr. fold t in Sa, Su, Sr.
  exists newA, newU, newR.
  pose proof (shape_attempts _ _ _ _ _ _ Sa) as Aa.
  pose proof (shape_attempts _ _ _ _ _ _ Su) as Au.
  pose proof (shape_attempts _ _ _ _ _ _ Sr) as Ar.
  destruct (shape_reported _ _ _ _ _ _ Sa) as [Ba Oa].
  destruct (shape_reported _ _ _ _ _ _ Su) as [Bu Ou].
  destruct (shape_reported _ _ _ _ _ _ Sr) as [Br Or].
  assert (T : t = List.length d.(Delta.added) + List.length d.(Delta.updated)
                  + List.length d.(Delta.removed)).
  { unfold t, Delta.total. lia. }
  assert (At : attempts (newA ++ newU ++ newR) = t).
  { rewrite !attempts_app. lia. }
  assert (Tr : steps_track 0 t (newA ++ newU ++ newR)).
  { apply steps_track_app. split; [eapply shape_track; eauto|].
    apply steps_track_app. rewrite Aa. simpl. split; [eapply shape_track; eauto|].
    rewrite Au. eapply shape_track; eauto. }
  assert (Bd : Forall (fun x => 1 <= x <= t) (reported (newA ++ newU ++ newR))).
  { rewrite !reported_app. repeat (apply Forall_app; split).
    - eapply Forall_impl; [|exact Ba]. simpl. intros x. lia.
    - eapply Forall_impl; [|exact Bu]. simpl. intros x. lia.
    - eapply Forall_impl; [|exact Br]. simpl. intros x. lia. }
  split; [exact E|]. split; [exact Sa|]. split; [exact Su|]. split; [exact Sr|].
  split; [|split; [exact At|]].
  - rewrite !reported_app.
    apply (sorted_app _ _ (List.length d.(Delta.added))); auto.
    + apply (sorted_app _ _ (List.length d.(Delta.added) + List.length d.(Delta.updated)));
        auto.
      * eapply Forall_impl; [|exact Bu]. simpl. intros x. lia.
      * eapply Forall_impl; [|exact Br]. simpl. intros x. lia.
    + eapply Forall_impl; [|exact Ba]. simpl. intros x. lia.
    + apply Forall_app. split.
      * eapply Forall_impl; [|exact Bu]. simpl. intros x. lia.
      * eapply Forall_impl; [|exact Br]. simpl. intros x. lia.
  - intros pre message s t' post H.
    rewrite H in Tr, Bd, At |- *.
    apply steps_track_app in Tr. destruct Tr as [_ Tr]. simpl in Tr.
    destruct Tr as (Hs & Ht & _).
    rewrite reported_app in Bd. apply Forall_app in Bd. destruct Bd as [_ Bd].
    simpl in Bd. inversion Bd as [|x l Hb _]; subst x l.
    rewrite At. repeat split; auto; lia.
Qed.

Section Sequence.

Variable P : Platform.
Variable env : Env.

Lemma batch_run_events (b : Batch) (showIndicator : bool) (t s : nat)
    (items : list IExtension) (w w' : World P) (new : list Event) :
  batch_run env b showIndicator t s items w new w' ->
  events w' = (events w ++ new)%list.
Proof.
  induction 1 as [s w|s item rest w w2 w' settled body evs _ _ Ev _ _ IH].
  - now rewrite app_nil_r.
  - rewrite IH. cbn [emit snd events]. unfold push. rewrite Ev.
    repeat (rewrite <- app_assoc; cbn [app]). reflexivity.
Qed.

Lemma batch_run_marks (b : Batch) (showIndicator : bool) (t s : nat)
    (items : list IExtension) (w w' : World P) (new : list Event) :
  batch_run env b showIndicator t s items w new w' ->
  marks new = record_marks b items.
Proof.
  induction 1 as [s w|s item rest w w2 w' settled body evs _ _ _ Hq _ IH]; simpl; auto.
  rewrite marks_app. destruct (quiet_body _ _ _ Hq) as (-> & _). simpl.
  now rewrite IH.
Qed.

Lemma quiet_one_at_a_time (s t : nat) (body rest : list Event)
    (b : Batch) (item : IExtension) :
  Forall (quiet s t) body ->
  one_at_a_time (Some (b, item)) rest ->
  one_at_a_time (Some (b, item)) (body ++ rest).
Proof.
  induction 1 as [|e l He _ IH]; intros Hr; [exact Hr|].
  destruct e; simpl in He; try contradiction; simpl; split; auto; discriminate.
Qed.

Lemma batch_run_one_at_a_time (b : Batch) (showIndicator : bool) (t s : nat)
    (items : list IExtension) (w w' : World P) (new : list Event) :
  batch_run env b showIndicator t s items w new w' ->
  forall rest, one_at_a_time None rest -> one_at_a_time None (new ++ rest).
Proof.
  induction 1 as [s w|s item rest w w2 w' settled body evs _ _ _ Hq _ IH];
    intros tail Ht; [exact Ht|].
  cbn [app one_at_a_time]. split; [reflexivity|].
  rewrite <- app_assoc. apply (quiet_one_at_a_time _ _ _ _ _ _ Hq).
  cbn [app one_at_a_time]. split; [reflexivity|]. now apply IH.
Qed.

(** The shared loop runs its records one at a time. *)
Lemma series_batch_run (b : Batch) (showIndicator : bool) (t : nat)
    (items : list IExtension) :
  forall s acc (w : World P),
  exists new,
    batch_run env b showIndicator t s items w new
              (snd (series env b showIndicator t items s acc w)).
Proof.
  induction items as [|item rest IH]; intros s acc w.
  - exists []. constructor.
  - cbn [series].
    pose proof (attempt_events P b showIndicator (batch_label b) (S s) t item w) as Ea.
    set (w1 := snd (attempt b showIndicator (batch_label b) (S s) t item w)) in *.
    destruct (batch_pipeline_emits P env b showIndicator (S s) t item w1) as (body & Eb & Fb).
    pose proof (batch_pipeline_settles P env b showIndicator (S s) t item w1) as Hs.
    assert (Fq : Forall (quiet (S s) t)
                   ((if showIndicator
                     then [ShowSpinner (batch_label b ++ id item) (S s) t] else [])
                    ++ body)).
    { apply Forall_app. split; auto. destruct showIndicator; repeat constructor. }
    destruct (batch_pipeline env b showIndicator (S s) t item w1) as [settled w2] eqn:Ep.
    cbn [fst snd] in Eb, Hs.
    assert (Ev : events w2
                 = (events w
                    ++ Attempt b item
                       :: (if showIndicator
                           then [ShowSpinner (batch_label b ++ id item) (S s) t] else [])
                          ++ body)%list).
    { rewrite Eb, Ea. rewrite <- app_assoc. reflexivity. }
    destruct settled as [v|r|]; [| |congruence].
    + destruct (IH (S s) (push (fst acc) item, snd acc)
                   (snd (emit (Done b item true) w2))) as (new & Hr).
      eexists.
      exact (run_cons env b showIndicator t s item rest w w2 _ (Fulfilled v) _ new
               Ep Hs Ev Fq Hr).
    + destruct (IH (S s) (fst acc, push (snd acc) item)
                   (snd (emit (Done b item false) w2))) as (new & Hr).
      eexists.
      exact (run_cons env b showIndicator t s item rest w w2 _ (Rejected r) _ new
               Ep Hs Ev Fq Hr).
Qed.

Lemma run_batch_run (b : Batch) (options : ISyncOptions) (w : World P) :
  exists new,
    batch_run env b (showIndicator_or_false options) options.(total)
              options.(progress) options.(extensions) w new
              (snd (run_batch env b options w)).
Proof.
  rewrite run_batch_series. apply series_batch_run.
Qed.

End Sequence.

(** C8. In every pass the events are, in order, those of the added batch,
    those of the updated batch, those of the removed batch, then the clearing
    of the indicator and the removal of the marker file. Each batch runs its
    records one at a time in the order of the delta: a record is entered, the
    promise of its iteratee runs until it has settled, [done] is called, and
    only then is the next record entered; between the entry of a record and
    its [done] lie only the reports and library calls of that record, and
    every report and library call of the three batches lies between the
    entry of one record and the [done] of that same record. The
    updated batch starts in the world the added batch left and the removed
    batch in the world the updated batch left; these worlds are those the
    three runners leave. So the entries and exits are, in order, each added
    record entered and finished, then each updated record, then each removed
    record. *)
Theorem batches_in_sequence (P : Platform) (env : Env)
    (extensions : option (list IExtension)) (showIndicator : bool) (w : World P) :
  let d := different_extensions env extensions in
  let t := Delta.total d in
  exists new,
    events (snd (sync env extensions showIndicator w)) = (events w ++ new)%list
    /\ marks new
       = (record_marks AddBatch d.(Delta.added)
          ++ record_marks UpdateBatch d.(Delta.updated)
          ++ record_marks RemoveBatch d.(Delta.removed))%list
    /\ exists newA newU newR wa wu wr,
         new = (newA ++ newU ++ newR
                ++ (if showIndicator then [ClearSpinner ""] else [])
                ++ [Called (CallRemove (obsolete_file P env))])%list
         /\ one_at_a_time None (newA ++ newU ++ newR)
         /\ batch_run env AddBatch showIndicator t 0 d.(Delta.added) w newA wa
         /\ batch_run env UpdateBatch showIndicator t (List.length d.(Delta.added))
                      d.(Delta.updated) wa newU wu
         /\ batch_run env RemoveBatch showIndicator t
                      (List.length d.(Delta.added) + List.length d.(Delta.updated))
                      d.(Delta.removed) wu newR wr
         /\ wa = snd (run_batch env AddBatch (add_options d showIndicator) w)
         /\ wu = snd (run_batch env UpdateBatch (update_options d showIndicator) wa)
         /\ wr = snd (run_batch env RemoveBatch (remove_options d showIndicator) wu)
         /\ machine (snd (sync env extensions showIndicator w))
            = snd (P.(fs_remove) (obsolete_file P env) (machine wr)).
Proof.
  intros d t.
  destruct (sync_run P env extensions showIndicator w)
    as (a & ae & wa & u & ue & wu & r & re & wr & Ea & Eu & Er & Es).
  fold d in Ea, Eu, Er.
  destruct (run_batch_run P env AddBatch (add_options d showIndicator) w) as (newA & Ra).
  destruct (run_batch_run P env UpdateBatch (update_options d showIndicator) wa)
    as (newU & Ru).
  destruct (run_batch_run P env RemoveBatch (remove_options d showIndicator) wu)
    as (newR & Rr).
  rewrite Ea in Ra. rewrite Eu in Ru. rewrite Er in Rr.
  cbn [snd] in Ra, Ru, Rr.
  change (batch_run env AddBatch showIndicator t 0 d.(Delta.added) w newA wa) in Ra.
  change (batch_run env UpdateBatch showIndicator t (List.length d.(Delta.added))
            d.(Delta.updated) wa newU wu) in Ru.
  change (batch_run env RemoveBatch showIndicator t
            (List.length d.(Delta.added) + List.length d.(Delta.updated))
            d.(Delta.removed) wu newR wr) in Rr.
  pose proof (batch_run_events P env _ _ _ _ _ _ _ _ Ra) as Eva.
  pose proof (batch_run_events P env _ _ _ _ _ _ _ _ Ru) as Evu.
  pose proof (batch_run_events P env _ _ _ _ _ _ _ _ Rr) as Evr.
  exists (newA ++ newU ++ newR
          ++ (if showIndicator then [ClearSpinner ""] else [])
          ++ [Called (CallRemove (obsolete_file P env))])%list.
  split; [|split].
  - rewrite Es. cbn [snd events]. rewrite Evr, Evu, Eva.
    rewrite <- !app_assoc. reflexivity.
  - rewrite !marks_app.
    rewrite (batch_run_marks P env _ _ _ _ _ _ _ _ Ra),
      (batch_run_marks P env _ _ _ _ _ _ _ _ Ru),
      (batch_run_marks P env _ _ _ _ _ _ _ _ Rr).
    destruct showIndicator; simpl; now rewrite !app_nil_r.
  - exists newA, newU, newR, wa, wu, wr.
    rewrite Ea, Eu, Er, Es. cbn [snd machine].
    split; [reflexivity|]. split; [|repeat split; auto].
    apply (batch_run_one_at_a_time P env _ _ _ _ _ _ _ _ Ra).
    apply (batch_run_one_at_a_time P env _ _ _ _ _ _ _ _ Ru).
    rewrite <- (app_nil_r newR).
    now apply (batch_run_one_at_a_time P env _ _ _ _ _ _ _ _ Rr).
Qed.

(** C9. For every desired list (absent or not), every platform and every
    world, the promise of [sync] is fulfilled, never rejected and never left
    pending, with the report that merges the six lists of the three runners;
    the answer of the removal of the [.obsolete] file does not enter the
    report: when the removal fails, the same report is resolved. *)
Theorem sync_always_resolves (P : Platform) (env : Env)
    (extensions : option (list IExtension)) (showIndicator : bool) (w : World P) :
  let d := different_extensions env extensions in
  exists a ae wa u ue wu r re wr,
    run_batch env AddBatch (add_options d showIndicator) w = (Some (a, ae), wa)
    /\ run_batch env UpdateBatch (update_options d showIndicator) wa = (Some (u, ue), wu)
    /\ run_batch env RemoveBatch (remove_options d showIndicator) wu = (Some (r, re), wr)
    /\ fst (sync env extensions showIndicator w)
       = Fulfilled
           {| extension :=
                Some (Status.mk (Some a) (Some ae) (Some u) (Some ue) (Some r) (Some re)) |}
    /\ (forall message,
          fst (P.(fs_remove) (obsolete_file P env) (machine wr)) = inl message ->
          fst (sync env extensions showIndicator w)
          = Fulfilled
              {| extension :=
                   Some (Status.mk (Some a) (Some ae) (Some u) (Some ue)
                                   (Some r) (Some re)) |}).
Proof.
  intros d.
  destruct (sync_run P env extensions showIndicator w)
    as (a & ae & wa & u & ue & wu & r & re & wr & Ea & Eu & Er & Es).
  exists a, ae, wa, u, ue, wu, r, re, wr. rewrite Es. auto.
Qed.

(* ================================================================= *)
(** ** The statements at concrete inputs *)


(** C3 as the spec words it fails: the download and the installation of
    [b.y] succeed, the rewrite of its manifest is rejected, and
    [_addExtensions] resolves with the record in [addedErrors] and an empty
    [added]. *)
Lemma metadata_failure_counterexample :
  let env := Sim.env_of [] in
  let item := Sim.record "b" "y" "1.0" (Some "m") in
  let w := Sim.start Sim.manifest_unreadable in
  (exists installed w2 reason w3,
      add_install env false 1 1 item
        (snd (attempt AddBatch false "Syncing: Downloading extension: " 1 1 item w))
      = (Fulfilled installed, w2)
      /\ updateMetadata (Some installed) w2 = (Rejected reason, w3))
  /\ exists w',
       _addExtensions env
         {| extensions := [item]; progress := 0; total := 1;
            showIndicator := Some false |} w
       = (Fulfilled (Added.mk [] [item]), w').
Proof.
  cbv zeta. split.
  - cbv. do 4 eexists. split; [reflexivity | cbv; reflexivity].
  - cbv. eexists. reflexivity.
Qed.

(** C3 (as amended) at that record. *)
Lemma metadata_failure_is_an_error_witness :
  exists w',
    add_iteratee (Sim.env_of []) false 1 (Sim.record "b" "y" "1.0" (Some "m"))
                 (0, Added.mk [] []) (Sim.start Sim.manifest_unreadable)
    = (Some (1, Added.mk [] [Sim.record "b" "y" "1.0" (Some "m")]), w').
Proof.
  eexists.
  eapply (proj1 (metadata_failure_is_an_error
                   (Sim.platform Sim.manifest_unreadable) (Sim.env_of []))).
  - cbv. reflexivity.
  - cbv. reflexivity.
Defined.

(** C9 on a machine whose marker file cannot be removed: the pass still
    resolves, with a report of six lists. *)
Lemma sync_always_resolves_witness :
  exists a ae u ue r re,
    fst (sync (Sim.env_of [Sim.installed "a" "x" "1.0"])
              (Some [Sim.record "a" "x" "2.0" None; Sim.record "b" "y" "1.0" None])
              true (Sim.start Sim.marker_locked))
    = Fulfilled
        {| extension :=
             Some (Status.mk (Some a) (Some ae) (Some u) (Some ue) (Some r) (Some re)) |}.
Proof.
  destruct (sync_always_resolves (Sim.platform Sim.marker_locked)
              (Sim.env_of [Sim.installed "a" "x" "1.0"])
              (Some [Sim.record "a" "x" "2.0" None; Sim.record "b" "y" "1.0" None])
              true (Sim.start Sim.marker_locked))
    as (a & ae & wa & u & ue & wu & r & re & wr & _ & _ & _ & _ & Hfail).
  exists a, ae, u, ue, r, re.
  apply (Hfail "EPERM"). reflexivity.
Defined.

(** C10 at a record that carries metadata and no install path: nothing is
    read or written and the promise is fulfilled. *)
Lemma updateMetadata_noop_witness :
  updateMetadata (Some (Sim.record "b" "y" "1.0" (Some "m"))) (Sim.start Sim.no_faults)
  = (Fulfilled tt, Sim.start Sim.no_faults).
Proof.
  apply (proj1 (proj2 (updateMetadata_noop (Sim.platform Sim.no_faults)))).
  right. reflexivity.
Defined.

(** The pass of the scenario of C2 on a machine without faults, with the
    indicator on: the steps reported, and the order in which the records are
    entered and finished. *)
Example scenario_reported_steps :
  reported
    (events
       (snd (sync (Sim.env_of [Sim.installed "a" "x" "1.0"])
                  (Some [Sim.record "a" "x" "2.0" None; Sim.record "b" "y" "1.0" None])
                  true (Sim.start Sim.no_faults))))
  = [1; 1; 2; 2; 2; 3].
Proof. vm_compute. reflexivity. Qed.

Example scenario_marks :
  marks
    (events
       (snd (sync (Sim.env_of [Sim.installed "a" "x" "1.0"])
                  (Some [Sim.record "a" "x" "2.0" None; Sim.record "b" "y" "1.0" None])
                  false (Sim.start Sim.no_faults))))
  = [Entered AddBatch (Sim.record "b" "y" "1.0" None);
     Finished AddBatch (Sim.record "b" "y" "1.0" None);
     Entered UpdateBatch (Sim.record "a" "x" "2.0" None);
     Finished UpdateBatch (Sim.record "a" "x" "2.0" None);
     Entered RemoveBatch (Sim.record "a" "x" "1.0" None);
     Finished RemoveBatch (Sim.record "a" "x" "1.0" None)].
Proof. vm_compute. reflexivity. Qed.

(** C7 on that pass. *)
Lemma progress_reports_witness :
  StronglySorted le
    (reported
       (events
          (snd (sync (Sim.env_of [Sim.installed "a" "x" "1.0"])
                     (Some [Sim.record "a" "x" "2.0" None;
                            Sim.record "b" "y" "1.0" None])
                     true (Sim.start Sim.no_faults))))).
Proof.
  destruct (progress_reports (Sim.platform Sim.no_faults)
              (Sim.env_of [Sim.installed "a" "x" "1.0"])
              (Some [Sim.record "a" "x" "2.0" None; Sim.record "b" "y" "1.0" None])
              (Sim.start Sim.no_faults))
    as (newA & newU & newR & E & _ & _ & _ & Hs & _).
  rewrite E. cbn [Sim.start events app].
  rewrite !app_assoc, reported_app. cbn [reported]. rewrite app_nil_r.
  rewrite <- !app_assoc. exact Hs.
Defined.

(** C8 on that pass, with the indicator off. *)
Lemma batches_in_sequence_witness :
  exists new,
    events
      (snd (sync (Sim.env_of [Sim.installed "a" "x" "1.0"])
                 (Some [Sim.record "a" "x" "2.0" None; Sim.record "b" "y" "1.0" None])
                 false (Sim.start Sim.no_faults)))
    = new
    /\ marks new
       = [Entered AddBatch (Sim.record "b" "y" "1.0" None);
          Finished AddBatch (Sim.record "b" "y" "1.0" None);
          Entered UpdateBatch (Sim.record "a" "x" "2.0" None);
          Finished UpdateBatch (Sim.record "a" "x" "2.0" None);
          Entered RemoveBatch (Sim.record "a" "x" "1.0" None);
          Finished RemoveBatch (Sim.record "a" "x" "1.0" None)].
Proof.
  destruct (batches_in_sequence (Sim.platform Sim.no_faults)
              (Sim.env_of [Sim.installed "a" "x" "1.0"])
              (Some [Sim.record "a" "x" "2.0" None; Sim.record "b" "y" "1.0" None])
              false (Sim.start Sim.no_faults))
    as (new & E & M & _).
  exists new. split; [exact E|]. rewrite M. reflexivity.
Defined.

(** A builtin extension is known to [getExtension] and left out of
    [getAll()]: it is never removed, and a desired record of its id at
    another version is an update. *)
Example builtin_extension :
  let env := Sim.env_of [Sim.builtin "vscode" "git" "1.0"] in
  different_extensions env (Some []) = Delta.mk [] [] []
  /\ different_extensions env (Some [Sim.record "vscode" "git" "2.0" None])
     = Delta.mk [] [] [Sim.record "vscode" "git" "2.0" None].
Proof. cbv zeta. split; reflexivity. Qed.

(* ================================================================= *)
(** ** More on the registry and the differ *)

Lemma registry_entry_by_id (env : Env) (l1 l2 : vscode.Extension) :
  NoDup (map vscode.id env.(all)) ->
  In l1 env.(all) -> In l2 env.(all) -> vscode.id l1 = vscode.id l2 -> l1 = l2.
Proof.
  induction (all env) as [|x xs IH]; simpl; intros N H1 H2 E; [contradiction|].
  inversion N as [|y ys Hx Hxs]; subst.
  destruct H1 as [<-|H1], H2 as [<-|H2]; auto.
  - exfalso. apply Hx. rewrite E. now apply in_map.
  - exfalso. apply Hx. rewrite <- E. now apply in_map.
Qed.

Lemma getAll_lookup (env : Env) (b : bool) (e : IExtension) :
  NoDup (map vscode.id env.(all)) ->
  In e (getAll env b) ->
  exists l, getExtension env e.(id) = Some l /\ In l env.(all) /\ getAll_item l = e.
Proof.
  intros N. rewrite getAll_filter, in_map_iff. intros (ext & <- & Hin).
  apply filter_In in Hin. destruct Hin as [Hin _].
  unfold getExtension.
  destruct (find (fun e0 => vscode.id e0 =? id (getAll_item ext)) (all env)) as [l|] eqn:F.
  - apply find_some in F. destruct F as [Hl El]. apply String.eqb_eq in El.
    assert (l = ext) by (eapply registry_entry_by_id; eauto). subst l. eauto.
  - exfalso. apply (find_none _ _ F) in Hin.
    unfold vscode.id, getAll_item in Hin. simpl in Hin.
    now rewrite String.eqb_refl in Hin.
Qed.

Lemma getAll_false_in_true (env : Env) (e : IExtension) :
  In e (getAll env false) -> In e (getAll env true).
Proof.
  rewrite !getAll_filter. intros He. apply in_map_iff in He.
  destruct He as (l & <- & Hl). apply filter_In in Hl. destruct Hl as [Hl _].
  apply in_map. apply filter_In. auto.
Qed.

(** X1. Every record of [getAll] has the id [publisher.name], no zip and no
    install path, never an empty metadata string, and comes from a registry
    entry (a user-installed one when builtin extensions are left out);
    [getAll(true)] has one record per registry entry and holds every record of
    [getAll(false)]. *)
Theorem getAll_records (env : Env) (includeBuiltin : bool) :
  List.length (getAll env true) = List.length env.(all)
  /\ (forall e, In e (getAll env includeBuiltin) ->
        e.(id) = e.(publisher) ++ "." ++ e.(name)
        /\ e.(zip) = None /\ e.(path) = None /\ e.(__metadata) <> Some ""
        /\ exists l, In l env.(all) /\ getAll_item l = e
                     /\ (includeBuiltin = false
                         -> l.(vscode.packageJSON).(vscode.isBuiltin) = false))
  /\ (forall e, In e (getAll env false) -> In e (getAll env true)).
Proof.
  rewrite !getAll_filter. split; [|split].
  - rewrite length_map. f_equal.
    induction (all env) as [|x xs IH]; simpl; [reflexivity | f_equal; exact IH].
  - intros e He. apply in_map_iff in He. destruct He as (l & <- & Hl).
    apply filter_In in Hl. destruct Hl as [Hl Hb].
    repeat split; auto.
    + unfold getAll_item. cbn [__metadata].
      destruct (vscode.__metadata (vscode.packageJSON l)) as [m|]; simpl; [|discriminate].
      destruct (m =? "") eqn:E; simpl; [discriminate|].
      apply String.eqb_neq in E. congruence.
    + exists l. repeat split; auto. intros ->. simpl in Hb.
      now destruct (vscode.isBuiltin (vscode.packageJSON l)).
  - intros e He. rewrite <- !getAll_filter in *. now apply getAll_false_in_true.
Qed.

(** X2. In a registry without two entries of the same id, every record that
    [getAll] returns is found again by [getExtension] under its id, as the
    very entry it was made from: same publisher, name and version. *)
Theorem getAll_getExtension (env : Env) (includeBuiltin : bool) (e : IExtension) :
  NoDup (map vscode.id env.(all)) ->
  In e (getAll env includeBuiltin) ->
  exists l,
    getExtension env e.(id) = Some l
    /\ l.(vscode.packageJSON).(vscode.publisher) = e.(publisher)
    /\ l.(vscode.packageJSON).(vscode.name) = e.(name)
    /\ l.(vscode.packageJSON).(vscode.version) = e.(version).
Proof.
  intros N He. destruct (getAll_lookup env includeBuiltin e N He) as (l & G & _ & <-).
  exists l. auto.
Qed.

(** X3. Syncing to what is installed changes nothing: in a registry without
    two entries of the same id, the delta of the list [getAll] returns (with
    or without the builtin extensions) is empty, and its total is 0. *)
Theorem differ_of_installed (env : Env) (includeBuiltin : bool) :
  NoDup (map vscode.id env.(all)) ->
  different_extensions env (Some (getAll env includeBuiltin)) = Delta.mk [] [] []
  /\ Delta.total (different_extensions env (Some (getAll env includeBuiltin))) = 0.
Proof.
  intros N.
  assert (R : forall e, In e (getAll env includeBuiltin) -> is_reserved env e = true).
  { intros e He. destruct (getAll_lookup env includeBuiltin e N He) as (l & G & _ & <-).
    unfold is_reserved. rewrite G. apply String.eqb_refl. }
  assert (E : different_extensions env (Some (getAll env includeBuiltin))
              = Delta.mk [] [] []).
  { rewrite different_extensions_closed. f_equal.
    - induction (getAll env includeBuiltin) as [|e l IH]; [reflexivity|].
      cbn [filter]. assert (Ha : is_added env e = false).
      { pose proof (R e (or_introl eq_refl)) as Hr. unfold is_reserved, is_added in *.
        destruct (getExtension env (id e)); [reflexivity|discriminate]. }
      rewrite Ha. apply IH. intros. apply R. now right.
    - assert (F : forall e, In e (getAll env false) ->
                  existsb (String.eqb (id e))
                          (reserved_ids env (getAll env includeBuiltin)) = true).
      { intros e He. apply existsb_exists. exists (id e). split; [|apply String.eqb_refl].
        unfold reserved_ids. apply in_map. apply filter_In. split.
        - destruct includeBuiltin; auto. now apply getAll_false_in_true.
        - apply R. destruct includeBuiltin; auto. now apply getAll_false_in_true. }
      induction (getAll env false) as [|e l IH]; [reflexivity|].
      cbn [filter]. rewrite (F e (or_introl eq_refl)). simpl.
      apply IH. intros. apply F. now right.
    - induction (getAll env includeBuiltin) as [|e l IH]; [reflexivity|].
      cbn [filter]. assert (Hu : is_updated env e = false).
      { pose proof (R e (or_introl eq_refl)) as Hr. unfold is_reserved, is_updated in *.
        destruct (getExtension env (id e)); [|reflexivity]. now rewrite Hr. }
      rewrite Hu. apply IH. intros. apply R. now right. }
  split; [exact E|]. now rewrite E.
Qed.

(** X4. The differ loses and invents nothing: the added, the updated and the
    reserved records are as many as the desired ones; every removed record
    is an installed one; and the total is at most the number of desired
    records plus the number of installed ones. *)
Theorem differ_counts (env : Env) (desired : list IExtension) :
  let d := different_extensions env (Some desired) in
  List.length d.(Delta.added) + List.length d.(Delta.updated)
  + List.length (reserved_ids env desired) = List.length desired
  /\ (forall e, In e d.(Delta.removed) -> In e (getAll env false))
  /\ List.length d.(Delta.removed) <= List.length (getAll env false)
  /\ Delta.total d <= List.length desired + List.length (getAll env false).
Proof.
  intros d. subst d. rewrite different_extensions_closed. unfold Delta.total.
  cbn [Delta.added Delta.updated Delta.removed].
  assert (C : List.length (filter (is_added env) desired)
              + List.length (filter (is_updated env) desired)
              + List.length (reserved_ids env desired) = List.length desired).
  { unfold reserved_ids. rewrite length_map.
    induction desired as [|e l IH]; [reflexivity|]. cbn [filter].
    unfold is_added at 1, is_updated at 1, is_reserved at 1.
    destruct (getExtension env (id e)) as [x|]; simpl; [|lia].
    destruct (_ =? _); simpl; lia. }
  assert (L : forall (f : IExtension -> bool) l,
            List.length (filter f l) <= List.length l).
  { intros f l. induction l as [|x xs IH]; simpl; [lia|]. destruct (f x); simpl; lia. }
  pose proof (L (fun e => negb (existsb (String.eqb (id e)) (reserved_ids env desired)))
                (getAll env false)) as Lr.
  repeat split; auto; try lia.
  intros e He. apply filter_In in He. tauto.
Qed.

Lemma getAll_getExtension_witness :
  exists l,
    getExtension (Sim.env_of [Sim.installed "a" "x" "1.0"; Sim.builtin "vscode" "git" "1.0"])
                 "a.x" = Some l
    /\ l.(vscode.packageJSON).(vscode.version) = "1.0".
Proof.
  destruct (getAll_getExtension
              (Sim.env_of [Sim.installed "a" "x" "1.0"; Sim.builtin "vscode" "git" "1.0"])
              false (Sim.record "a" "x" "1.0" None))
    as (l & G & _ & _ & V).
  - repeat constructor; simpl; intuition discriminate.
  - left. reflexivity.
  - exists l. split; [exact G|exact V].
Defined.

Lemma differ_of_installed_witness :
  different_extensions
    (Sim.env_of [Sim.installed "a" "x" "1.0"; Sim.builtin "vscode" "git" "1.0"])
    (Some (getAll (Sim.env_of [Sim.installed "a" "x" "1.0";
                               Sim.builtin "vscode" "git" "1.0"]) false))
  = Delta.mk [] [] [].
Proof.
  apply (differ_of_installed
           (Sim.env_of [Sim.installed "a" "x" "1.0"; Sim.builtin "vscode" "git" "1.0"])
           false).
  repeat constructor; simpl; intuition discriminate.
Defined.

(* ================================================================= *)
(** ** More on the stages *)

Section Stages.

Variable P : Platform.
Variable env : Env.

Lemma yields_then {A B : Type} (Q : Event -> Prop) (R : A -> Prop) (R' : B -> Prop)
    (p : Promise P A) (f : A -> Promise P B) :
  yields Q R p -> (forall a, R a -> yields Q R' (f a)) -> yields Q R' (then_ p f).
Proof.
  intros Hp Hf w. unfold then_, bind.
  destruct (Hp w) as (n1 & E1 & F1 & V1).
  destruct (p w) as [[a|r|] w1]; simpl in *.
  - destruct (Hf a (V1 a eq_refl) w1) as (n2 & E2 & F2 & V2).
    exists (n1 ++ n2)%list. rewrite E2, E1, app_assoc. repeat split; auto.
    apply Forall_app; auto.
  - exists n1. repeat split; auto. discriminate.
  - exists n1. repeat split; auto. discriminate.
Qed.

Lemma yields_bind {X A : Type} (Q : Event -> Prop) (R : A -> Prop)
    (m : IO P X) (k : X -> Promise P A) :
  emits Q m -> (forall x, yields Q R (k x)) -> yields Q R (bind m k).
Proof.
  intros Hm Hk w. unfold bind.
  destruct (Hm w) as (n1 & E1 & F1). destruct (m w) as [x w1]. simpl in E1.
  destruct (Hk x w1) as (n2 & E2 & F2 & V2).
  exists (n1 ++ n2)%list. rewrite E2, E1, app_assoc. repeat split; auto.
  apply Forall_app; auto.
Qed.

Lemma yields_emits {A : Type} (Q : Event -> Prop) (R : A -> Prop) (p : Promise P A) :
  yields Q R p -> emits Q p.
Proof. intros H w. destruct (H w) as (new & E & F & _). eauto. Qed.

(** The case analysis of a stage on what the library calls answer. *)
Ltac answers :=
  cbv beta iota;
  repeat match goal with
         | |- context [match ?x with inl _ => _ | inr _ => _ end] =>
             is_var x; destruct x; cbv beta iota
         | |- context [match ?x with Some _ => _ | None => _ end] =>
             is_var x; destruct x; cbv beta iota
         | |- context [if ?b then _ else _] => destruct b eqn:?; cbv beta iota
         | |- context [let (_, _) := ?t in _] =>
             lazymatch t with
             | context [let (_, _) := _ in _] => fail
             | _ =>
                 let x := fresh "x" in
                 let m := fresh "m" in
                 destruct t as [x m] eqn:?; cbn [machine events fst snd]; cbv beta iota
             end
         end;
  cbn [machine events fst snd].

Ltac settle :=
  eexists; split;
  [ first [ symmetry; apply app_nil_r
          | unfold push; rewrite <- ?app_assoc; cbn [app]; reflexivity ]
  | split;
    [ repeat constructor; cbn; auto
    | try (intros ? ?; try discriminate) ] ].

Lemma downloadExtension_yields (extension : IExtension) :
  yields (P:=P) (fun e => only_calls e /\ removes_nothing e
                          /\ touches_own_folders P env extension e)
         (fun e' => exists filepath, e' = with_zip extension filepath)
         (downloadExtension env extension).
Proof.
  intros w. unfold downloadExtension, bind, call, reject, resolve, ret.
  answers; settle.
  all: match goal with
       | H : Fulfilled _ = Fulfilled _ |- _ => inversion H; eauto
       end.
Qed.

Lemma extractExtension_yields (extension : IExtension) :
  yields (P:=P) (fun e => only_calls e /\ removes_nothing e
                          /\ touches_own_folders P env extension e)
         (fun e' => e' = with_path extension
                           (extension_dir P env extension extension.(version)))
         (extractExtension env extension).
Proof.
  intros w.
  unfold extractExtension, catch, then_, fs_promise, bind, call, reject, resolve, ret.
  destruct (zip extension) as [zipFilepath|]; answers; settle.
  all: match goal with
       | H : Fulfilled _ = Fulfilled _ |- _ => inversion H; reflexivity
       end.
Qed.

Lemma uninstallExtension_yields (extension : IExtension) :
  yields (P:=P) (fun e => only_calls e /\ touches_own_folders P env extension e)
         (fun e' => e' = extension)
         (uninstallExtension env extension).
Proof.
  intros w. unfold uninstallExtension, bind, call, reject, resolve, ret.
  answers; settle.
  all: match goal with
       | H : Fulfilled _ = Fulfilled _ |- _ => inversion H; reflexivity
       end.
Qed.

Lemma updateMetadata_yields (item e : IExtension) :
  e.(path) = Some (extension_dir P env item item.(version)) ->
  yields (P:=P) (fun ev => only_calls ev /\ removes_nothing ev
                           /\ touches_own_folders P env item ev)
         (fun _ => True)
         (updateMetadata (Some e)).
Proof.
  intros Hp w. unfold updateMetadata. rewrite Hp.
  unfold rewrite_manifest, catch, then_, fs_promise, bind, call, reject, resolve, ret.
  destruct (__metadata e) as [metadata|]; answers; settle; auto.
Qed.

Lemma get_set_property (members : list (string * Json)) (k : string) (v : Json) :
  get_property (set_property members k v) k = Some v
  /\ forall k', k' <> k ->
       get_property (set_property members k v) k' = get_property members k'.
Proof.
  induction members as [|[k0 v0] rest [IH1 IH2]]; simpl.
  - rewrite String.eqb_refl. split; auto.
    intros k' Hk. apply String.eqb_neq in Hk. rewrite String.eqb_sym. now rewrite Hk.
  - destruct (k0 =? k) eqn:E; simpl.
    + rewrite String.eqb_refl. split; auto. intros k' Hk.
      apply String.eqb_eq in E. subst k0.
      apply String.eqb_neq in Hk. rewrite String.eqb_sym. now rewrite Hk.
    + rewrite E. split; auto. intros k' Hk.
      destruct (k0 =? k'); auto.
Qed.

(** X5. A download that is fulfilled gives back the record it was given with
    only [zip] set, to the temporary file [tmp.file] made, after exactly four
    library calls: the temporary file, the write stream on it, the GET of the
    gallery asset of the record, and the pipe into the file. *)
Theorem downloadExtension_fulfilled (extension e' : IExtension) (w w' : World P) :
  downloadExtension env extension w = (Fulfilled e', w') ->
  exists filepath,
    e' = with_zip extension filepath
    /\ fst (P.(tmp_file) ("." ++ extension.(id) ++ ".zip") (machine w)) = inr filepath
    /\ events w'
       = (events w
          ++ [Called (CallTmpFile ("." ++ extension.(id) ++ ".zip"));
              Called (CallCreateWriteStream filepath);
              Called (CallHttpsGet (download_options env extension));
              Called (CallPipe filepath)])%list.
Proof.
  unfold downloadExtension, bind, call, reject, resolve, ret.
  answers; intros H; inversion H; subst.
  eexists. repeat split. cbn [events]. unfold push. now rewrite <- !app_assoc.
Qed.

(** X6. When the temporary file is made and the gallery answers with a
    status other than 200, the download is rejected with [undefined]; the
    write stream is already open on the temporary file and nothing is piped
    into it. *)
Theorem downloadExtension_refused (extension : IExtension) (w : World P)
    (filepath : string) (status : nat) (m1 m2 : P.(Machine)) :
  P.(tmp_file) ("." ++ extension.(id) ++ ".zip") (machine w) = (inr filepath, m1) ->
  P.(https_get) (download_options env extension) (P.(fs_createWriteStream) filepath m1)
  = (inr status, m2) ->
  status <> 200 ->
  downloadExtension env extension w
  = (Rejected Undefined,
     mkWorld P m2
       (events w
        ++ [Called (CallTmpFile ("." ++ extension.(id) ++ ".zip"));
            Called (CallCreateWriteStream filepath);
            Called (CallHttpsGet (download_options env extension))])%list).
Proof.
  intros Ht Hg Hs.
  unfold downloadExtension, bind, call, reject, resolve, ret.
  rewrite Ht. cbn [machine events]. rewrite Hg. cbn [machine events].
  apply Nat.eqb_neq in Hs. rewrite Hs. unfold push. now rewrite <- !app_assoc.
Qed.

(** X7. Without a zip path (absent or empty) the extraction is rejected at
    once, with no library call; and every rejection of the extraction is the
    string "Cannot extract extension: <id>. " followed by a reason. *)
Theorem extractExtension_rejections :
  (forall extension (w : World P),
      truthy extension.(zip) = false ->
      extractExtension env extension w
      = (Rejected (Message ("Cannot extract extension: " ++ extension.(id)
                            ++ ". Extension zip file not found.")), w))
  /\ (forall extension (w : World P) reason,
        fst (extractExtension env extension w) = Rejected reason ->
        exists why,
          reason = Message ("Cannot extract extension: " ++ extension.(id) ++ ". " ++ why)).
Proof.
  split.
  - intros extension w H. unfold extractExtension, truthy in *.
    destruct (zip extension) as [z|]; [|reflexivity].
    destruct (z =? ""); [reflexivity|discriminate].
  - intros extension w reason.
    unfold extractExtension, catch, then_, fs_promise, bind, call, reject, resolve, ret.
    destruct (zip extension) as [zipFilepath|]; answers; intros H;
      inversion H; unfold cannot_extract; eauto.
Qed.


Lemma no_new_events (l new : list Event) : l = (l ++ new)%list -> new = [].
Proof.
  intros H. apply (app_inv_head l). rewrite app_nil_r. symmetry. exact H.
Qed.

(** X9. The only manifest [updateMetadata] ever writes is [package.json]
    under the install path of the record, and what it writes is what it read
    from that file with the key [__metadata] set to the metadata of the
    record: every other key reads as before. *)
Theorem updateMetadata_write (e : IExtension) (w : World P) (new : list Event)
    (filepath : string) (content : Json) :
  events (snd (updateMetadata (Some e) w)) = (events w ++ new)%list ->
  In (Called (CallWriteJson filepath content)) new ->
  exists metadata extPath packageJSON,
    e.(__metadata) = Some metadata /\ e.(path) = Some extPath
    /\ filepath = P.(path_join) extPath "package.json"
    /\ fst (P.(fs_readJson) filepath (machine w)) = inr packageJSON
    /\ content = with_metadata packageJSON metadata
    /\ get_property (own_properties content) "__metadata" = Some (JString metadata)
    /\ forall k, k <> "__metadata" ->
         get_property (own_properties content) k
         = get_property (own_properties packageJSON) k.
Proof.
  unfold updateMetadata.
  destruct (__metadata e) as [metadata|];
    [|intros E; simpl in E; apply no_new_events in E; subst new; contradiction].
  destruct (path e) as [extPath|];
    [|intros E; simpl in E; apply no_new_events in E; subst new; contradiction].
  unfold rewrite_manifest, catch, then_, fs_promise, bind, call, reject, resolve, ret.
  answers; unfold push; rewrite <- ?app_assoc; cbn [app]; intros E;
    first [ apply no_new_events in E | apply app_inv_head in E ];
    subst new; cbn [In]; intros H;
    repeat match goal with
           | H : _ \/ _ |- _ => destruct H
           | H : False |- _ => contradiction
           | H : Called _ = Called _ |- _ => inversion H; clear H; subst
           end.
  all: match goal with
       | R : fs_readJson P _ _ = (inr ?pj, _) |- _ =>
           exists metadata, extPath, pj; unfold with_metadata; cbn [own_properties];
           destruct (get_set_property (own_properties pj) "__metadata" (JString metadata))
             as [G1 G2];
           repeat split; auto; now rewrite R
       end.
Qed.

Lemma spinner_emits (Q : Event -> Prop) (showIndicator : bool) (message : string)
    (steps total : nat) :
  (showIndicator = true -> Q (ShowSpinner message steps total)) ->
  emits (P:=P) Q (when showIndicator (showSpinner message steps total)).
Proof.
  intros HQ. unfold when, showSpinner. destruct showIndicator.
  - apply emits_emit. now apply HQ.
  - apply emits_ret.
Qed.

Lemma yields_weaken {A : Type} (Q Q' : Event -> Prop) (R R' : A -> Prop)
    (p : Promise P A) :
  (forall e, Q e -> Q' e) -> (forall v, R v -> R' v) ->
  yields Q R p -> yields Q' R' p.
Proof.
  intros HQ HR Hp w. destruct (Hp w) as (new & E & F & V).
  exists new. repeat split; auto. eapply Forall_impl; eauto.
Qed.

Lemma add_pipeline_own (showIndicator : bool) (steps total : nat) (item : IExtension) :
  emits (P:=P) (fun e => touches_own_folders P env item e /\ removes_nothing e)
        (add_pipeline env showIndicator steps total item).
Proof.
  pose (downloaded := fun e' : IExtension => exists filepath, e' = with_zip item filepath).
  pose (installed := fun e' : IExtension =>
                       e'.(path) = Some (extension_dir P env item item.(version))).
  apply yields_emits with (R := fun _ => True).
  unfold add_pipeline, add_install.
  apply yields_then with (R := installed);
    [apply yields_then with (R := downloaded)|].
  - eapply yields_weaken; [| |apply downloadExtension_yields]; simpl; tauto.
  - intros a [filepath ->]. apply yields_bind; [apply spinner_emits; simpl; auto|].
    intros _. eapply yields_weaken; [| |apply extractExtension_yields].
    + simpl. tauto.
    + intros v ->. reflexivity.
  - intros a Ha.
    eapply yields_weaken; [| |apply (updateMetadata_yields item); exact Ha]; simpl; tauto.
Qed.

Lemma update_pipeline_own (showIndicator : bool) (steps total : nat) (item : IExtension) :
  emits (P:=P) (touches_own_folders P env item)
        (update_pipeline env showIndicator steps total item).
Proof.
  pose (downloaded := fun e' : IExtension => exists filepath, e' = with_zip item filepath).
  pose (installed := fun e' : IExtension =>
                       e'.(path) = Some (extension_dir P env item item.(version))).
  apply yields_emits with (R := fun _ => True).
  unfold update_pipeline, update_install.
  apply yields_then with (R := installed);
    [apply yields_then with (R := downloaded);
     [apply yields_then with (R := downloaded)|]|].
  - eapply yields_weaken; [| |apply downloadExtension_yields]; simpl; tauto.
  - intros a [filepath ->]. apply yields_bind; [apply spinner_emits; simpl; auto|].
    intros _. eapply yields_weaken; [| |apply uninstallExtension_yields].
    + simpl. tauto.
    + intros v ->. exists filepath. reflexivity.
  - intros a [filepath ->]. apply yields_bind; [apply spinner_emits; simpl; auto|].
    intros _. eapply yields_weaken; [| |apply extractExtension_yields].
    + simpl. tauto.
    + intros v ->. reflexivity.
  - intros a Ha.
    eapply yields_weaken; [| |apply (updateMetadata_yields item); exact Ha]; simpl; tauto.
Qed.

(** X10. The pipeline of an added record and the pipeline of an updated
    record touch only their own folders: whatever the libraries answer, the
    only folder they remove is the one of the installed version of the
    record's id, the only folder they empty and copy into is the one of the
    record's own version, and the only manifest they write is the
    [package.json] of that folder; the pipeline of an added record removes
    nothing at all. *)
Theorem pipelines_touch_own_folders (showIndicator : bool) (steps total : nat)
    (item : IExtension) :
  emits (P:=P) (fun e => touches_own_folders P env item e /\ removes_nothing e)
        (add_pipeline env showIndicator steps total item)
  /\ emits (P:=P) (touches_own_folders P env item)
           (update_pipeline env showIndicator steps total item).
Proof.
  split; [apply add_pipeline_own | apply update_pipeline_own].
Qed.

End Stages.

(* ================================================================= *)
(** ** More on the batches and the pass *)

Section Passes.

Variable P : Platform.
Variable env : Env.

Lemma emits_then {A B : Type} (Q : Event -> Prop) (p : Promise P A)
    (f : A -> Promise P B) :
  emits Q p -> (forall a, emits Q (f a)) -> emits Q (then_ p f).
Proof.
  intros Hp Hf. unfold then_. apply emits_bind; auto.
  intros [a|r|]; auto; apply emits_ret.
Qed.

Lemma calls_app (l1 l2 : list Event) : calls (l1 ++ l2) = (calls l1 ++ calls l2)%list.
Proof.
  induction l1 as [|e l IH]; simpl; auto.
  destruct e; simpl; congruence.
Qed.

(** The shared loop appends only events of kind [Q] when the entries, the
    exits, the reports and the pipelines of its records do. *)
Lemma series_emits (Q : Event -> Prop) (b : Batch) (showIndicator : bool) (t : nat)
    (items : list IExtension) :
  (forall item, In item items -> Q (Attempt b item)) ->
  (forall item ok, In item items -> Q (Done b item ok)) ->
  (showIndicator = true -> forall message s, Q (ShowSpinner message s t)) ->
  (forall item s, In item items ->
                  emits (P:=P) Q (batch_pipeline env b showIndicator s t item)) ->
  forall s acc, emits (P:=P) Q (series env b showIndicator t items s acc).
Proof.
  induction items as [|item rest IH]; intros Ha Hd Hs Hp s acc w.
  - exists []. simpl. rewrite app_nil_r. auto.
  - cbn [series].
    pose proof (attempt_events P b showIndicator (batch_label b) (S s) t item w) as Ea.
    set (w1 := snd (attempt b showIndicator (batch_label b) (S s) t item w)) in *.
    destruct (Hp item (S s) (or_introl eq_refl) w1) as (body & Eb & Fb).
    assert (IH' : forall s acc, emits (P:=P) Q (series env b showIndicator t rest s acc)).
    { apply IH; intros; auto; try apply Ha; try apply Hd; try apply Hp; now right. }
    assert (Fa : Forall Q (Attempt b item
                           :: (if showIndicator
                               then [ShowSpinner (batch_label b ++ id item) (S s) t]
                               else []))).
    { constructor; [apply Ha; now left|].
      destruct showIndicator; constructor; auto. }
    destruct (batch_pipeline env b showIndicator (S s) t item w1) as [[v|r|] w2];
      simpl in Eb.
    + destruct (IH' (S s) (push (fst acc) item, snd acc)
                    (snd (emit (Done b item true) w2))) as (new & En & Fn).
      exists ((Attempt b item
               :: (if showIndicator
                   then [ShowSpinner (batch_label b ++ id item) (S s) t] else []))
              ++ body ++ Done b item true :: new)%list.
      split.
      * rewrite En. simpl. unfold push. rewrite Eb, Ea.
        repeat (rewrite <- app_assoc; simpl). reflexivity.
      * apply Forall_app; split; auto. apply Forall_app; split; auto.
        constructor; auto. apply Hd. now left.
    + destruct (IH' (S s) (fst acc, push (snd acc) item)
                    (snd (emit (Done b item false) w2))) as (new & En & Fn).
      exists ((Attempt b item
               :: (if showIndicator
                   then [ShowSpinner (batch_label b ++ id item) (S s) t] else []))
              ++ body ++ Done b item false :: new)%list.
      split.
      * rewrite En. simpl. unfold push. rewrite Eb, Ea.
        repeat (rewrite <- app_assoc; simpl). reflexivity.
      * apply Forall_app; split; auto. apply Forall_app; split; auto.
        constructor; auto. apply Hd. now left.
    + eexists. simpl. rewrite Eb, Ea. split; [now rewrite <- app_assoc|].
      apply Forall_app; auto.
Qed.

Lemma run_batch_emits (Q : Event -> Prop) (b : Batch) (options : ISyncOptions) :
  (forall item, In item options.(extensions) -> Q (Attempt b item)) ->
  (forall item ok, In item options.(extensions) -> Q (Done b item ok)) ->
  (showIndicator_or_false options = true ->
   forall message s, Q (ShowSpinner message s options.(total))) ->
  (forall item s, In item options.(extensions) ->
                  emits (P:=P) Q (batch_pipeline env b (showIndicator_or_false options)
                                                 s options.(total) item)) ->
  emits (P:=P) Q (run_batch env b options).
Proof.
  intros Ha Hd Hs Hp w. rewrite run_batch_series.
  now apply series_emits.
Qed.

(** A pass appends only events of kind [Q] when its three batches, the
    clearing of the indicator and the removal of the marker file do. *)
Lemma sync_emits (Q : Event -> Prop) (extensions : option (list IExtension))
    (showIndicator : bool) :
  let d := different_extensions env extensions in
  emits (P:=P) Q (run_batch env AddBatch (add_options d showIndicator)) ->
  emits (P:=P) Q (run_batch env UpdateBatch (update_options d showIndicator)) ->
  emits (P:=P) Q (run_batch env RemoveBatch (remove_options d showIndicator)) ->
  (showIndicator = true -> Q (ClearSpinner "")) ->
  Q (Called (CallRemove (obsolete_file P env))) ->
  emits (P:=P) Q (sync env extensions showIndicator).
Proof.
  intros d Ha Hu Hr Hc Ho w.
  destruct (sync_run P env extensions showIndicator w)
    as (a & ae & wa & u & ue & wu & r & re & wr & Ea & Eu & Er & Es).
  fold d in Ea, Eu, Er.
  destruct (Ha w) as (nA & EA & FA). rewrite Ea in EA. simpl in EA.
  destruct (Hu wa) as (nU & EU & FU). rewrite Eu in EU. simpl in EU.
  destruct (Hr wu) as (nR & ER & FR). rewrite Er in ER. simpl in ER.
  rewrite Es. cbn [snd events]. rewrite ER, EU, EA.
  eexists. split; [repeat (rewrite <- app_assoc; simpl); reflexivity|].
  repeat (apply Forall_app; split); auto.
  destruct showIndicator; constructor; auto.
Qed.

Lemma uninstallExtension_events (item : IExtension) (w : World P) :
  events (snd (uninstallExtension env item w))
  = (events w
     ++ [Called (CallRemove (extension_dir P env item (installed_version env item)))])%list.
Proof.
  unfold uninstallExtension, bind, call, reject, resolve, ret.
  fold (installed_version env item). fold (extension_dir P env item (installed_version env item)).
  destruct (fs_remove P _ (machine w)) as [[message|[]] m]; reflexivity.
Qed.

Lemma silent_pipeline (b : Batch) (s t : nat) (item : IExtension) :
  emits (P:=P) only_calls (batch_pipeline env b false s t item).
Proof.
  destruct b; unfold batch_pipeline, add_pipeline, add_install, update_pipeline,
    update_install, when;
    repeat first
      [ apply emits_then; [|intros ?]
      | apply emits_bind; [apply emits_ret|intros ?]
      | apply downloadExtension_emits
      | apply extractExtension_emits
      | apply updateMetadata_emits
      | apply uninstallExtension_emits
      | apply emits_ret ].
Qed.

(** X11. The report of a pass accounts for every record of the delta: the
    records of [added] and [addedErrors] together are those of the delta's
    added list, each once, and likewise for the updated and the removed
    lists; the six lists hold [total] records in all. *)
Theorem sync_report_accounts (extensions : option (list IExtension))
    (showIndicator : bool) (w : World P) :
  let d := different_extensions env extensions in
  exists a ae u ue r re,
    fst (sync env extensions showIndicator w)
    = Fulfilled
        {| extension :=
             Some (Status.mk (Some a) (Some ae) (Some u) (Some ue) (Some r) (Some re)) |}
    /\ Permutation (a ++ ae) d.(Delta.added)
    /\ Permutation (u ++ ue) d.(Delta.updated)
    /\ Permutation (r ++ re) d.(Delta.removed)
    /\ List.length a + List.length ae + List.length u + List.length ue
       + List.length r + List.length re = Delta.total d.
Proof.
  intros d.
  destruct (sync_run P env extensions showIndicator w)
    as (a & ae & wa & u & ue & wu & r & re & wr & Ea & Eu & Er & Es).
  fold d in Ea, Eu, Er.
  destruct (run_batch_delivers P env AddBatch (add_options d showIndicator) w)
    as (a' & ae' & wa' & newA & Ea' & _ & _ & Pa).
  rewrite Ea in Ea'. inversion Ea'; subst a' ae' wa'. clear Ea'.
  destruct (run_batch_delivers P env UpdateBatch (update_options d showIndicator) wa)
    as (u' & ue' & wu' & newU & Eu' & _ & _ & Pu).
  rewrite Eu in Eu'. inversion Eu'; subst u' ue' wu'. clear Eu'.
  destruct (run_batch_delivers P env RemoveBatch (remove_options d showIndicator) wu)
    as (r' & re' & wr' & newR & Er' & _ & _ & Pr).
  rewrite Er in Er'. inversion Er'; subst r' re' wr'. clear Er'.
  simpl in Pa, Pu, Pr.
  exists a, ae, u, ue, r, re. rewrite Es. repeat split; auto.
  apply Permutation_length in Pa, Pu, Pr. rewrite length_app in Pa, Pu, Pr.
  unfold Delta.total. lia.
Qed.

(** X12. A pass with the indicator off never calls [Toast]: no spinner is
    shown and none is cleared, whatever the desired list and whatever the
    libraries answer. *)
Theorem sync_silent (extensions : option (list IExtension)) :
  emits (P:=P) (fun e => ~ is_toast e) (sync env extensions false).
Proof.
  assert (B : forall b options,
             showIndicator_or_false options = false ->
             emits (P:=P) (fun e => ~ is_toast e) (run_batch env b options)).
  { intros b options Hs. apply run_batch_emits; simpl; auto.
    - rewrite Hs. discriminate.
    - intros item s _. rewrite Hs.
      eapply emits_weaken; [|apply silent_pipeline].
      intros [] H; simpl in *; tauto. }
  apply sync_emits; simpl; auto. discriminate.
Qed.

(** X13. With an empty delta a pass touches no extension: it resolves with
    six empty lists after one library call only, the removal of the marker
    file (preceded by the clearing of the indicator when it is on). *)
Theorem sync_nothing_to_do (extensions : option (list IExtension))
    (showIndicator : bool) (w : World P) :
  different_extensions env extensions = Delta.mk [] [] [] ->
  fst (sync env extensions showIndicator w)
  = Fulfilled
      {| extension :=
           Some (Status.mk (Some []) (Some []) (Some []) (Some []) (Some []) (Some [])) |}
  /\ events (snd (sync env extensions showIndicator w))
     = (events w ++ (if showIndicator then [ClearSpinner ""] else [])
        ++ [Called (CallRemove (obsolete_file P env))])%list.
Proof.
  intros Hd.
  destruct (sync_run P env extensions showIndicator w)
    as (a & ae & wa & u & ue & wu & r & re & wr & Ea & Eu & Er & Es).
  rewrite Hd in Ea, Eu, Er.
  rewrite run_batch_series in Ea, Eu, Er. simpl in Ea, Eu, Er.
  inversion Ea; subst. inversion Eu; subst. inversion Er; subst.
  rewrite Es. split; reflexivity.
Qed.

Lemma remove_series_calls (showIndicator : bool) (t : nat) (items : list IExtension) :
  forall s acc (w : World P),
  exists new,
    events (snd (series env RemoveBatch showIndicator t items s acc w))
    = (events w ++ new)%list
    /\ calls new
       = map (fun item =>
                CallRemove (extension_dir P env item (installed_version env item)))
             items.
Proof.
  induction items as [|item rest IH]; intros s acc w.
  - exists []. simpl. now rewrite app_nil_r.
  - cbn [series batch_pipeline].
    pose proof (attempt_events P RemoveBatch showIndicator (batch_label RemoveBatch)
                               (S s) t item w) as Ea.
    set (w1 := snd (attempt RemoveBatch showIndicator (batch_label RemoveBatch)
                            (S s) t item w)) in *.
    pose proof (uninstallExtension_events item w1) as Eu.
    pose proof (uninstallExtension_settles P env item w1) as Hs.
    unfold then_, bind, resolve, ret.
    destruct (uninstallExtension env item w1) as [[v|r|] w2]; simpl in Eu, Hs;
      [| |congruence].
    + destruct (IH (S s) (push (fst acc) item, snd acc)
                   (snd (emit (Done RemoveBatch item true) w2))) as (new & En & Cn).
      exists ((Attempt RemoveBatch item
               :: (if showIndicator
                   then [ShowSpinner (batch_label RemoveBatch ++ id item) (S s) t]
                   else []))
              ++ [Called (CallRemove (extension_dir P env item
                                                    (installed_version env item)))]
              ++ Done RemoveBatch item true :: new)%list.
      split.
      * rewrite En. simpl. unfold push. rewrite Eu, Ea.
        repeat (rewrite <- app_assoc; simpl). reflexivity.
      * rewrite !calls_app. simpl. rewrite Cn. destruct showIndicator; reflexivity.
    + destruct (IH (S s) (fst acc, push (snd acc) item)
                   (snd (emit (Done RemoveBatch item false) w2))) as (new & En & Cn).
      exists ((Attempt RemoveBatch item
               :: (if showIndicator
                   then [ShowSpinner (batch_label RemoveBatch ++ id item) (S s) t]
                   else []))
              ++ [Called (CallRemove (extension_dir P env item
                                                    (installed_version env item)))]
              ++ Done RemoveBatch item false :: new)%list.
      split.
      * rewrite En. simpl. unfold push. rewrite Eu, Ea.
        repeat (rewrite <- app_assoc; simpl). reflexivity.
      * rewrite !calls_app. simpl. rewrite Cn. destruct showIndicator; reflexivity.
Qed.

(** X14. [_removeExtensions] makes exactly one library call per record of
    its batch, in the order of the batch, whatever fails: the removal of the
    folder of the record at the installed version of its id. *)
Theorem removeExtensions_calls (options : ISyncOptions) (w : World P) :
  exists new,
    events (snd (_removeExtensions env options w)) = (events w ++ new)%list
    /\ calls new
       = map (fun item =>
                CallRemove (extension_dir P env item (installed_version env item)))
             options.(extensions).
Proof.
  destruct (remove_series_calls (showIndicator_or_false options) options.(total)
              options.(extensions) options.(progress) ([], []) w) as (new & E & C).
  exists new. split; auto.
  rewrite _removeExtensions_series, run_batch_series.
  destruct (series _ _ _ _ _ _ _ _) as [[[a e]|] w']; exact E.
Qed.

(** X15. A pass keeps to the delta: whatever the libraries answer, the only
    things it removes are the marker file and the folders of the installed
    versions of the updated and removed records; the only folders it empties
    and copies into are those of the added and updated records at their own
    version; and the only manifests it writes are those of these folders. *)
Theorem sync_keeps_to_delta (extensions : option (list IExtension))
    (showIndicator : bool) :
  emits (P:=P) (pass_touches P env (different_extensions env extensions))
        (sync env extensions showIndicator).
Proof.
  set (d := different_extensions env extensions).
  apply sync_emits; fold d; simpl; auto.
  - apply run_batch_emits; simpl; auto.
    intros item s Hin.
    eapply emits_weaken; [|apply (add_pipeline_own P env)].
    intros [| |[]| |] [H1 H2]; simpl in *; try tauto; eauto 6.
  - apply run_batch_emits; simpl; auto.
    intros item s Hin.
    eapply emits_weaken; [|apply (update_pipeline_own P env)].
    intros [| |[]| |] H; simpl in *; try tauto; eauto 6.
  - apply run_batch_emits; simpl; auto.
    intros item s Hin w.
    pose proof (uninstallExtension_events item w) as E.
    unfold then_, bind, resolve, ret.
    destruct (uninstallExtension env item w) as [[v|r|] w']; simpl in *;
      eexists; (split; [exact E|]); (constructor; [|constructor]);
      simpl; right; exists item; auto.
Qed.

End Passes.

(* ================================================================= *)
(** ** More on [extension.ts] *)

Lemma extension_changed_spec (item : ISyncStatus) :
  has_lists item ->
  exists b, extension_changed item = Returns b /\ (b = true <-> reports_change item).
Proof.
  unfold has_lists, extension_changed, reports_change.
  destruct (extension item) as [ext|].
  - intros (Ha & Hr & Hu).
    destruct (Status.added ext) as [[|xa la]|] eqn:Ea; [| |congruence];
      destruct (Status.removed ext) as [[|xr lr]|] eqn:Er; try congruence;
      destruct (Status.updated ext) as [[|xu lu]|] eqn:Eu; try congruence;
      simpl; eexists; (split; [reflexivity|]); split; intros H; try reflexivity;
      try discriminate;
      try (exists ext; split; [reflexivity|]; rewrite ?Ea, ?Er, ?Eu; eauto 7).
    destruct H as (ext' & E & [(x & l & H)|[(x & l & H)|(x & l & H)]]);
      inversion E; subst ext'; congruence.
  - intros _. exists false. split; auto. split; [discriminate|].
    intros (ext & E & _). discriminate.
Qed.

(** X16. On statuses whose [extension] object, when present, has its three
    success lists, [_isExtensionsSynced] never throws, and it returns [true]
    exactly when one of the statuses under [updated] reports an extension
    added, removed or updated: the error lists and the statuses under
    [removed] play no part. *)
Theorem isExtensionsSynced_spec (items : Synced.t) :
  Forall has_lists items.(Synced.updated) ->
  exists b,
    _isExtensionsSynced items = Returns b
    /\ (b = true <-> exists item, In item items.(Synced.updated) /\ reports_change item).
Proof.
  unfold _isExtensionsSynced. induction 1 as [|item rest Hi Hr IH]; simpl.
  - exists false. split; auto. split; [discriminate|]. intros (item & [] & _).
  - destruct (extension_changed_spec item Hi) as (b & E & Hb). rewrite E.
    destruct b.
    + exists true. split; auto. split; auto. intros _. exists item. split; auto.
      now apply Hb.
    + destruct IH as (b' & E' & Hb'). exists b'. split; auto.
      rewrite Hb'. split.
      * intros (x & Hx & Hc). eauto.
      * intros (x & [<-|Hx] & Hc); eauto.
        apply Hb in Hc. discriminate.
Qed.

Lemma isExtensionsSynced_spec_witness :
  _isExtensionsSynced
    (Synced.mk
       [ {| extension := None |};
         {| extension :=
              Some (Status.mk (Some []) (Some [Sim.record "b" "y" "1.0" None])
                              (Some []) (Some []) (Some []) (Some [])) |} ]
       [])
  = Returns false.
Proof.
  destruct (isExtensionsSynced_spec
              (Synced.mk
                 [ {| extension := None |};
                   {| extension :=
                        Some (Status.mk (Some []) (Some [Sim.record "b" "y" "1.0" None])
                                        (Some []) (Some []) (Some []) (Some [])) |} ]
                 []))
    as (b & E & _).
  - repeat constructor; simpl; discriminate.
  - reflexivity.
Defined.

(** X17. On the report of a pass [_isExtensionsSynced] never throws, and it
    answers whether some record was added, removed or updated with success:
    a pass in which every record failed, or with nothing to do, asks for no
    reload. *)
Theorem isExtensionsSynced_of_sync (P : Platform) (env : Env)
    (extensions : option (list IExtension)) (showIndicator : bool) (w : World P) :
  exists status a ae u ue r re,
    fst (sync env extensions showIndicator w) = Fulfilled status
    /\ status
       = {| extension :=
              Some (Status.mk (Some a) (Some ae) (Some u) (Some ue) (Some r) (Some re)) |}
    /\ forall others removed,
         _isExtensionsSynced (Synced.mk (status :: others) removed)
         = match a, r, u with
           | [], [], [] => _isExtensionsSynced (Synced.mk others removed)
           | _, _, _ => Returns true
           end.
Proof.
  destruct (sync_run P env extensions showIndicator w)
    as (a & ae & wa & u & ue & wu & r & re & wr & _ & _ & _ & Es).
  eexists. exists a, ae, u, ue, r, re. rewrite Es. repeat split.
  intros others removed. unfold _isExtensionsSynced. simpl.
  destruct a, r, u; reflexivity.
Qed.

Section CommandRuns.

Variable S : Services.

(** The case analysis of a command on what its collaborators answer. *)
Ltac outcomes :=
  unfold download_failed; unfold and_then, or_catch, ask, act, tell, done, set_isSyncing;
  cbn [_isSyncing backend actions fst snd];
  repeat match goal with
         | |- context [match ?x with inl _ => _ | inr _ => _ end] =>
             is_var x; destruct x; cbn [_isSyncing backend actions fst snd]
         | |- context [match ?x with Failed _ => _ | FailedWithUndefined => _ end] =>
             is_var x; destruct x; cbn [_isSyncing backend actions fst snd]
         | |- context [match ?x with Some _ => _ | None => _ end] =>
             is_var x; destruct x; cbn [_isSyncing backend actions fst snd]
         | |- context [match _isExtensionsSynced ?x with _ => _ end] =>
             destruct (_isExtensionsSynced x) as [[|]|];
             cbn [_isSyncing backend actions fst snd]
         | |- context [if ?b then _ else _] =>
             destruct b eqn:?; cbn [_isSyncing backend actions fst snd]
         | |- context [let (_, _) := ?t in _] =>
             lazymatch t with
             | context [let (_, _) := _ in _] => fail
             | context [match _ with _ => _ end] => fail
             | _ =>
                 let r := fresh "r" in
                 let b := fresh "b" in
                 destruct t as [r b] eqn:?; cbn [_isSyncing backend actions fst snd]
             end
         end.

(** X18. A command that finds a synchronization in progress does nothing at
    all, and a command that starts idle ends idle, whatever its
    collaborators answer: [_isSyncing] is released on every path of
    [_uploadSettings] and of [_downloadSettings]. *)
Theorem commands_release_the_flag (s : Session S) :
  (_isSyncing s = true -> _uploadSettings s = s /\ _downloadSettings s = s)
  /\ (_isSyncing s = false ->
      _isSyncing (_uploadSettings s) = false
      /\ _isSyncing (_downloadSettings s) = false).
Proof.
  split; intros H.
  - unfold _uploadSettings, _downloadSettings. rewrite H. auto.
  - unfold _uploadSettings, _downloadSettings. rewrite H. split.
    + outcomes; reflexivity.
    + outcomes; reflexivity.
Qed.

Ltac seen :=
  eexists; split;
  [ first [ symmetry; apply app_nil_r
          | unfold push; rewrite <- ?app_assoc; cbn [app]; reflexivity ]
  | ].

(** X19. Whatever its collaborators answer, [_downloadSettings] is seen to
    do one of five things only: nothing; announce "Settings downloaded";
    announce it and then show the reload box; clear the GitHub token; or
    clear the gist id. So the token and the gist id are never both cleared,
    nothing is cleared after the announcement, and the reload box comes only
    after it. *)
Theorem downloadSettings_actions (s : Session S) :
  exists new,
    actions (_downloadSettings s) = (actions s ++ new)%list
    /\ (new = []
        \/ new = [StatusInfo S "Syncing: Settings downloaded."]
        \/ new = [StatusInfo S "Syncing: Settings downloaded."; ShowReloadBox S]
        \/ (new = [ClearGitHubToken S]
            /\ exists b, backend (_downloadSettings s) = S.(clearGitHubToken) b)
        \/ (new = [ClearGistID S]
            /\ exists b, backend (_downloadSettings s) = S.(clearGistID) b)).
Proof.
  unfold _downloadSettings. destruct (_isSyncing s) eqn:H.
  - exists []. rewrite app_nil_r. auto.
  - outcomes; seen; eauto 8.
Qed.

Ltac given := first [eassumption | reflexivity].

(** X20. What [_uploadSettings] is seen to do follows from what its
    collaborators answer. It does nothing when a synchronization is in
    progress or when [prepareUploadSettings], [getConfigs] or [findAndUpdate]
    fails. When [findAndUpdate] gives a gist with the id of the prepared
    settings, it announces "Settings uploaded" and saves nothing. When the
    gist has another id, it saves the prepared settings with the id of that
    very gist (the token and the rest are kept), and announces only if
    [saveSettings] succeeds. *)
Theorem uploadSettings_actions (s : Session S) :
  exists new,
    actions (_uploadSettings s) = (actions s ++ new)%list
    /\ ((new = []
         /\ (_isSyncing s = true
             \/ (exists err b0, S.(prepareUploadSettings) true (backend s) = (inl err, b0))
             \/ (exists settings b0 err b1,
                   S.(prepareUploadSettings) true (backend s) = (inr settings, b0)
                   /\ S.(getConfigs) true true b0 = (inl err, b1))
             \/ (exists settings b0 configs b1 err b2,
                   S.(prepareUploadSettings) true (backend s) = (inr settings, b0)
                   /\ S.(getConfigs) true true b0 = (inr configs, b1)
                   /\ S.(findAndUpdate) settings.(Settings.token) (S.(syncing_proxy) b0)
                        settings.(Settings.id) configs true true b1 = (inl err, b2))))
        \/ exists settings b0 configs b1 gist b2,
             S.(prepareUploadSettings) true (backend s) = (inr settings, b0)
             /\ S.(getConfigs) true true b0 = (inr configs, b1)
             /\ S.(findAndUpdate) settings.(Settings.token) (S.(syncing_proxy) b0)
                  settings.(Settings.id) configs true true b1 = (inr gist, b2)
             /\ ((gist.(Gist.id) = settings.(Settings.id)
                  /\ new = [StatusInfo S "Syncing: Settings uploaded."])
                 \/ (gist.(Gist.id) <> settings.(Settings.id)
                     /\ exists r b3,
                          S.(saveSettings) (Settings.with_id settings gist.(Gist.id)) b2
                          = (r, b3)
                          /\ new
                             = SaveSettings S (Settings.with_id settings gist.(Gist.id))
                               :: match r with
                                  | inr _ => [StatusInfo S "Syncing: Settings uploaded."]
                                  | inl _ => []
                                  end))).
Proof.
  unfold _uploadSettings. destruct (_isSyncing s) eqn:H.
  - exists []. rewrite app_nil_r. auto.
  - outcomes; seen;
      repeat match goal with
             | N : (_ =? _) = false |- _ => apply String.eqb_neq in N
             | N : (_ =? _) = true |- _ => apply String.eqb_eq in N
             end.
    all: first
           [ right; do 6 eexists;
             split; [given|]; split; [given|]; split; [given|];
             first [ left; split; [assumption|reflexivity]
                   | right; split; [assumption|];
                     do 2 eexists; split; given ]
           | left; split; [reflexivity|];
             first [ right; left; do 2 eexists; given
                   | right; right; left; do 4 eexists; split; given
                   | right; right; right; do 6 eexists;
                     split; [given|]; split; given ] ].
Qed.

End CommandRuns.

(* ================================================================= *)
(** ** Failed downloads and the order of an update *)

Section Updates.

Variable P : Platform.
Variable env : Env.

Ltac answers' :=
  cbv beta iota;
  repeat match goal with
         | |- context [match ?x with inl _ => _ | inr _ => _ end] =>
             is_var x; destruct x; cbv beta iota
         | |- context [match ?x with Some _ => _ | None => _ end] =>
             is_var x; destruct x; cbv beta iota
         | |- context [if ?b then _ else _] => destruct b eqn:?; cbv beta iota
         | |- context [let (_, _) := ?t in _] =>
             lazymatch t with
             | context [let (_, _) := _ in _] => fail
             | _ =>
                 let x := fresh "x" in
                 let m := fresh "m" in
                 destruct t as [x m] eqn:?; cbn [machine events fst snd]; cbv beta iota
             end
         end;
  cbn [machine events fst snd].

Lemma downloadExtension_keeps (item : IExtension) :
  emits (P:=P) keeps_installation (downloadExtension env item).
Proof.
  intros w. unfold downloadExtension, bind, call, reject, resolve, ret.
  answers'; eexists;
    (split; [unfold push; rewrite <- ?app_assoc; cbn [app]; reflexivity|]);
    repeat constructor.
Qed.

(** X21. A download never touches the extension folders, and a record whose
    download is rejected is not processed any further by its own pipeline:
    the pipeline of an added record and the pipeline of an updated record
    then settle as the download did, in the world the download left, with no
    uninstall, no extraction and no rewrite of a manifest. This is about the
    pipeline of the record only, not about what the removed batch of the
    same pass does afterwards. *)
Theorem failed_download_touches_nothing (showIndicator : bool) (steps total : nat)
    (item : IExtension) :
  emits (P:=P) keeps_installation (downloadExtension env item)
  /\ (forall (w w' : World P) reason,
        downloadExtension env item w = (Rejected reason, w') ->
        add_pipeline env showIndicator steps total item w = (Rejected reason, w')
        /\ update_pipeline env showIndicator steps total item w = (Rejected reason, w')).
Proof.
  split; [apply downloadExtension_keeps|].
  intros w w' reason H.
  unfold add_pipeline, add_install, update_pipeline, update_install, then_, bind.
  rewrite H. split; reflexivity.
Qed.

Lemma spinner_then {A : Type} (showIndicator : bool) (message : string) (s t : nat)
    (k : unit -> IO P A) (w : World P) :
  exists ws,
    bind (when showIndicator (showSpinner message s t)) k w = k tt ws
    /\ events ws
       = (events w ++ (if showIndicator then [ShowSpinner message s t] else []))%list.
Proof.
  unfold bind, when, showSpinner, emit, ret. destruct showIndicator.
  - eexists. split; reflexivity.
  - exists w. split; [reflexivity|]. now rewrite app_nil_r.
Qed.

(** The first half of the pipeline of an updated record: no folder is
    emptied, and when it is fulfilled the folder of the installed version
    has been removed. *)
Lemma update_uninstalls_first (showIndicator : bool) (steps total : nat)
    (item : IExtension) (w : World P) :
  exists n1,
    events (snd (then_ (downloadExtension env item)
                   (fun extension =>
                      bind (when showIndicator
                              (showSpinner ("Syncing: Removing outdated extension: "
                                            ++ item.(id)) steps total))
                           (fun _ => uninstallExtension env extension)) w))
    = (events w ++ n1)%list
    /\ Forall empties_nothing n1
    /\ forall v,
         fst (then_ (downloadExtension env item)
                (fun extension =>
                   bind (when showIndicator
                           (showSpinner ("Syncing: Removing outdated extension: "
                                         ++ item.(id)) steps total))
                        (fun _ => uninstallExtension env extension)) w)
         = Fulfilled v ->
         In (Called (CallRemove (extension_dir P env item
                                               (installed_version env item)))) n1.
Proof.
  unfold then_. unfold bind at 1 3.
  destruct (downloadExtension_keeps item w) as (nd & Ed & Fd).
  destruct (downloadExtension_yields P env item w) as (nd' & _ & _ & Vd).
  assert (Fd' : Forall empties_nothing nd).
  { eapply Forall_impl; [|exact Fd]. intros [| |[]| |]; simpl; auto. }
  destruct (downloadExtension env item w) as [[e1|r|] w1]; simpl in Ed, Vd.
  - destruct (Vd e1 eq_refl) as [filepath ->].
    destruct (spinner_then showIndicator
                ("Syncing: Removing outdated extension: " ++ item.(id)) steps total
                (fun _ => uninstallExtension env (with_zip item filepath)) w1)
      as (ws & -> & Es).
    pose proof (uninstallExtension_events P env (with_zip item filepath) ws) as Eu.
    change (extension_dir P env (with_zip item filepath)
              (installed_version env (with_zip item filepath)))
      with (extension_dir P env item (installed_version env item)) in Eu.
    exists (nd ++ (if showIndicator
                   then [ShowSpinner ("Syncing: Removing outdated extension: " ++ id item)
                                     steps total]
                   else [])
            ++ [Called (CallRemove (extension_dir P env item
                                                  (installed_version env item)))])%list.
    split; [|split].
    + rewrite Eu, Es, Ed. now rewrite <- !app_assoc.
    + apply Forall_app; split; auto. apply Forall_app; split.
      * destruct showIndicator; repeat constructor.
      * repeat constructor.
    + intros _ _. apply in_or_app. right. apply in_or_app. right. now left.
  - exists nd. repeat split; auto. discriminate.
  - exists nd. repeat split; auto. discriminate.
Qed.

Lemma removal_comes_first (target dir : string) (n1 : list Event) :
  Forall empties_nothing n1 ->
  In (Called (CallRemove target)) n1 ->
  forall pre post n2,
    (n1 ++ n2)%list = (pre ++ Called (CallEmptyDir dir) :: post)%list ->
    In (Called (CallRemove target)) pre.
Proof.
  induction 1 as [|e l He Hl IH]; intros Hin pre post n2 Heq; [contradiction|].
  destruct pre as [|x pre']; simpl in Heq; inversion Heq; subst.
  - contradiction.
  - destruct Hin as [->|Hin]; [now left|]. right. eapply IH; eauto.
Qed.

(** X22. An update uninstalls before it installs: in the run of the
    pipeline of an updated record, whenever a folder is emptied the folder
    of the installed version of the record has already been removed. *)
Theorem update_removes_before_installing (showIndicator : bool) (steps total : nat)
    (item : IExtension) (w : World P) (pre post : list Event) (dir : string) :
  events (snd (update_pipeline env showIndicator steps total item w))
  = (events w ++ pre ++ Called (CallEmptyDir dir) :: post)%list ->
  In (Called (CallRemove (extension_dir P env item (installed_version env item)))) pre.
Proof.
  unfold update_pipeline, update_install.
  destruct (update_uninstalls_first showIndicator steps total item w)
    as (n1 & E1 & F1 & V1).
  unfold then_ at 1 2. unfold bind at 1 2.
  destruct (then_ (downloadExtension env item) _ w) as [[e2|r|] w2];
    simpl in E1, V1.
  - intros H.
    match type of H with
    | events (snd ?t) = _ =>
        assert (Er : exists n2, events (snd t) = (events w2 ++ n2)%list)
    end.
    { assert (Em : emits (P:=P) (fun _ => True)
                     (bind (when showIndicator
                              (showSpinner ("Syncing: Installing extension: " ++ id item)
                                           steps total))
                           (fun _ => extractExtension env e2))).
      { apply emits_bind.
        - apply spinner_emits. auto.
        - intros _. eapply emits_weaken; [|apply extractExtension_emits]. auto. }
      destruct (Em w2) as (na & Ea & _). cbv beta.
      destruct (bind _ _ w2) as [[v|r|] w3]; simpl in Ea.
      - destruct (updateMetadata_emits P (Some v) w3) as (nb & Eb & _).
        exists (na ++ nb)%list. rewrite Eb, Ea. now rewrite app_assoc.
      - exists na. exact Ea.
      - exists na. exact Ea. }
    destruct Er as (n2 & E2).
    rewrite E2, E1, <- app_assoc in H. apply app_inv_head in H.
    eapply removal_comes_first; eauto.
  - simpl. rewrite E1. intros H. apply app_inv_head in H. exfalso.
    subst n1. apply Forall_app in F1. destruct F1 as [_ F1].
    inversion F1; subst. contradiction.
  - simpl. rewrite E1. intros H. apply app_inv_head in H. exfalso.
    subst n1. apply Forall_app in F1. destruct F1 as [_ F1].
    inversion F1; subst. contradiction.
Qed.

End Updates.

(* ================================================================= *)
(** ** The further statements at concrete inputs *)

(** X5 at the download of [b.y] on a machine without faults. *)
Lemma downloadExtension_fulfilled_witness :
  exists filepath,
    fst (downloadExtension (Sim.env_of []) (Sim.record "b" "y" "1.0" None)
                           (Sim.start Sim.no_faults))
    = Fulfilled (with_zip (Sim.record "b" "y" "1.0" None) filepath).
Proof.
  destruct (downloadExtension_fulfilled (Sim.platform Sim.no_faults) (Sim.env_of [])
              (Sim.record "b" "y" "1.0" None)
              (with_zip (Sim.record "b" "y" "1.0" None) "/tmp/file.b.y.zip")
              (Sim.start Sim.no_faults)
              (snd (downloadExtension (Sim.env_of []) (Sim.record "b" "y" "1.0" None)
                                      (Sim.start Sim.no_faults))))
    as (filepath & E & _).
  - reflexivity.
  - exists filepath. rewrite <- E. reflexivity.
Defined.

(** X6 at the download of a record of the publisher [bad], whose gallery
    answers 404. *)
Lemma downloadExtension_refused_witness :
  fst (downloadExtension (Sim.env_of []) (Sim.record "bad" "b" "1.0" None)
                         (Sim.start Sim.gallery_down))
  = Rejected Undefined.
Proof.
  rewrite (downloadExtension_refused (Sim.platform Sim.gallery_down) (Sim.env_of [])
             (Sim.record "bad" "b" "1.0" None) (Sim.start Sim.gallery_down)
             "/tmp/file.bad.b.zip" 404 [] ["/tmp/file.bad.b.zip"]).
  - reflexivity.
  - reflexivity.
  - reflexivity.
  - discriminate.
Defined.


(** X9 at the rewrite of the manifest of an installed [b.y] that carries
    metadata. *)
Lemma updateMetadata_write_witness :
  exists packageJSON,
    get_property (own_properties (with_metadata packageJSON "m")) "__metadata"
    = Some (JString "m")
    /\ get_property (own_properties (with_metadata packageJSON "m")) "name"
       = Some (JString "x").
Proof.
  destruct (updateMetadata_write (Sim.platform Sim.no_faults)
              (with_path (Sim.record "b" "y" "1.0" (Some "m")) "/ext/b.y-1.0")
              (Sim.start Sim.no_faults)
              [Called (CallReadJson "/ext/b.y-1.0/package.json");
               Called (CallWriteJson "/ext/b.y-1.0/package.json"
                         (JObject [("name", JString "x"); ("__metadata", JString "m")]))]
              "/ext/b.y-1.0/package.json"
              (JObject [("name", JString "x"); ("__metadata", JString "m")]))
    as (metadata & extPath & packageJSON & Hm & Hp & _ & Hr & Hc & _).
  - reflexivity.
  - right. left. reflexivity.
  - exists packageJSON. inversion Hm; subst metadata.
    simpl in Hr. inversion Hr; subst packageJSON. split; reflexivity.
Defined.

(** X13 at a pass towards what is installed. *)
Lemma sync_nothing_to_do_witness :
  events
    (snd (sync (Sim.env_of [Sim.installed "a" "x" "1.0"])
               (Some [Sim.record "a" "x" "1.0" None]) true (Sim.start Sim.no_faults)))
  = [ClearSpinner ""; Called (CallRemove "/ext/.obsolete")].
Proof.
  apply (sync_nothing_to_do (Sim.platform Sim.no_faults)
           (Sim.env_of [Sim.installed "a" "x" "1.0"])
           (Some [Sim.record "a" "x" "1.0" None]) true (Sim.start Sim.no_faults)).
  reflexivity.
Defined.

(** X22 at the update of [a.x] from 1.0 to 2.0 on a machine without faults:
    the folder of 1.0 is removed before the folder of 2.0 is emptied. *)
Lemma update_removes_before_installing_witness :
  In (Called (CallRemove "/ext/a.x-1.0"))
     [Called (CallTmpFile ".a.x.zip");
      Called (CallCreateWriteStream "/tmp/file.a.x.zip");
      Called (CallHttpsGet
                (download_options (Sim.env_of [Sim.installed "a" "x" "1.0"])
                                  (Sim.record "a" "x" "2.0" None)));
      Called (CallPipe "/tmp/file.a.x.zip");
      Called (CallRemove "/ext/a.x-1.0");
      Called (CallTmpDir ".a.x");
      Called (CallExtractZip "/tmp/file.a.x.zip" "/tmp/dir.a.x")].
Proof.
  apply (update_removes_before_installing (Sim.platform Sim.no_faults)
           (Sim.env_of [Sim.installed "a" "x" "1.0"]) false 1 1
           (Sim.record "a" "x" "2.0" None) (Sim.start Sim.no_faults)
           _ [Called (CallCopy "/tmp/dir.a.x/extension" "/ext/a.x-2.0")]
           "/ext/a.x-2.0").
  reflexivity.
Defined.
